(** * The billing-extraction server: text normalizer, JSON extractor,
      record canonicalizer, provider dispatch and record store

    A shallow embedding of [src/main.py].  Python values are modelled as
    they are at run time: a [str] is a sequence of Unicode code points, a
    [dict] with string keys is a finite map, the values [json.loads]
    produces form an inductive type, and a function that may raise returns
    a [result].  The builtins the program calls ([str.strip],
    [str.splitlines], [json.loads], ...) are modelled next to the code
    that uses them. *)

From Stdlib Require Import ZArith NArith Ascii String DecimalString Lia.
From stdpp Require Import base option list gmap.

Set Warnings "-register-all".
Set Default Proof Using "Type".

(** ** Python strings *)

(** A Python [str]: its code points, in order. *)
Abbreviation pystr := (list N).

(** An ASCII literal of the source, as a [str]. *)
Definition lit (s : string) : pystr := N_of_ascii <$> list_ascii_of_string s.

Module Ch.
Definition TAB : N := 9.
Definition LF : N := 10.
Definition CR : N := 13.
Definition SPACE : N := 32.
Definition DQUOTE : N := 34.      (* double quote *)
Definition APOS : N := 39.        (* apostrophe *)
Definition SLASH : N := 47.       (* solidus *)
Definition BACKSLASH : N := 92.
Definition BACKTICK : N := 96.
Definition LBRACE : N := 123.     (* opening brace *)
Definition RBRACE : N := 125.     (* closing brace *)
Definition LDQUO : N := 8220.     (* U+201C left double quotation mark *)
Definition RDQUO : N := 8221.     (* U+201D right double quotation mark *)
Definition LSQUO : N := 8216.     (* U+2018 left single quotation mark *)
Definition RSQUO : N := 8217.     (* U+2019 right single quotation mark *)
Definition LINE_SEP : N := 8232.  (* U+2028 line separator *)
End Ch.

Definition in_range (lo hi c : N) : bool := (lo <=? c)%N && (c <=? hi)%N.

(** [ch.isspace()]: the code points [str.strip] removes. *)
Definition isspace (c : N) : bool :=
  in_range 9 13 c || in_range 28 32 c || N.eqb c 133 || N.eqb c 160
  || N.eqb c 5760 || in_range 8192 8202 c || N.eqb c 8232 || N.eqb c 8233
  || N.eqb c 8239 || N.eqb c 8287 || N.eqb c 12288.

(** The line boundaries of [str.splitlines]. *)
Definition is_linebreak (c : N) : bool :=
  in_range 10 13 c || in_range 28 30 c || N.eqb c 133
  || N.eqb c 8232 || N.eqb c 8233.

Fixpoint lstrip (s : pystr) : pystr :=
  match s with
  | [] => []
  | c :: r => if isspace c then lstrip r else s
  end.

Definition rstrip (s : pystr) : pystr := rev (lstrip (rev s)).

(** [s.strip()] *)
Definition strip (s : pystr) : pystr := rstrip (lstrip s).

(** [s.startswith(prefix)] *)
Fixpoint startswith (pre s : pystr) : bool :=
  match pre, s with
  | [], _ => true
  | _ :: _, [] => false
  | a :: pre', b :: s' => N.eqb a b && startswith pre' s'
  end.

(** [s.endswith(suffix)] *)
Definition endswith (suf s : pystr) : bool := startswith (rev suf) (rev s).

(** [c in s] for a one-character [c] *)
Definition contains (c : N) (s : pystr) : bool := existsb (N.eqb c) s.

(** [s.replace(old, new)] for one-character [old] and [new] *)
Definition replace (old new : N) (s : pystr) : pystr :=
  (fun c => if N.eqb c old then new else c) <$> s.

(** [s.find(c)]: the index of the first [c], or [-1]. *)
Fixpoint find (c : N) (s : pystr) : Z :=
  match s with
  | [] => -1
  | x :: r => if N.eqb x c then 0
              else let i := find c r in if (i =? -1)%Z then -1 else (i + 1)%Z
  end.

(** [s[start:]] for [start >= 0] *)
Definition slice_from (start : Z) (s : pystr) : pystr := drop (Z.to_nat start) s.

(** [s.splitlines()].  [cur] is the line being read; [after_cr] holds
    right after a carriage return, whose following line feed belongs to
    the same boundary.  A final line boundary opens no empty last line. *)
Fixpoint splitlines_from (cur : pystr) (after_cr : bool) (s : pystr) : list pystr :=
  match s with
  | [] => match cur with [] => [] | _ => [cur] end
  | c :: r =>
      if after_cr && N.eqb c Ch.LF then splitlines_from cur false r
      else if is_linebreak c then cur :: splitlines_from [] (N.eqb c Ch.CR) r
      else splitlines_from (cur ++ [c]) false r
  end.

Definition splitlines (s : pystr) : list pystr := splitlines_from [] false s.

(** [sep.join(parts)] *)
Fixpoint join (sep : pystr) (parts : list pystr) : pystr :=
  match parts with
  | [] => []
  | [x] => x
  | x :: r => x ++ sep ++ join sep r
  end.

(** ** Exceptions and results *)

Inductive exn :=
| ValueError (msg : pystr)
| AttributeError
| KeyError
| IndexError
| TypeError
| JSONDecodeError
| HTTPError                                   (* httpx.HTTPError *)
| HTTPException (status : Z) (detail : pystr). (* fastapi.HTTPException *)

Inductive result (A : Type) :=
| Ok (a : A)
| Raise (e : exn).
Arguments Ok {A} a.
Arguments Raise {A} e.

Definition bind {A B} (r : result A) (k : A -> result B) : result B :=
  match r with
  | Ok a => k a
  | Raise e => Raise e
  end.

Definition raises {A} (r : result A) : bool :=
  match r with Ok _ => false | Raise _ => true end.

(** ** Decoded JSON values *)

(** What [json.loads] returns: [None], [bool], [int], [float], [str],
    [list], [dict].  A float is kept as the literal that denotes it. *)
Inductive json :=
| JNull
| JBool (b : bool)
| JInt (z : Z)
| JFloat (lexeme : pystr)
| JStr (s : pystr)
| JList (items : list json)
| JObject (members : gmap pystr json).

Definition is_dict (v : json) : bool :=
  match v with JObject _ => true | _ => false end.

(** ** The decoder [json.loads]

    The standard library's decoder, as a total function: a character
    automaton that cuts the text into tokens, and a pushdown automaton
    that builds the value.  It accepts what the CPython decoder accepts
    with its default settings (JSON, the literals [NaN], [Infinity] and
    [-Infinity], blanks between tokens, no raw control character in a
    string) and fails ([None]) where the decoder raises. *)

Module Json.

Inductive token :=
| TLBrace | TRBrace | TLBracket | TRBracket | TColon | TComma
| TString (s : pystr)
| TInt (z : Z)
| TFloat (lexeme : pystr)
| TTrue | TFalse | TNull.

(** Where the automaton stands inside a number: after the sign, after a
    leading zero, in the integer digits, after the point, in the fraction
    digits, after the exponent mark, after the exponent sign, in the
    exponent digits. *)
Inductive num_phase :=
| NSign | NZero | NInt | NDot | NFrac | NExp | NExpSign | NExpDigits.

(** Inside a string: plain text, after a backslash, or inside a
    four-digit hexadecimal escape with [k] digits read so far. *)
Inductive str_mode :=
| SPlain
| SEsc
| SHex (k : nat) (v : N).

Inductive lex_state :=
| LIdle
| LWord (todo : pystr) (tok : token)
| LNum (ph : num_phase) (lexeme : pystr)
| LStr (acc : pystr) (hi : option N) (m : str_mode).

(** The blanks of the decoder: space, tab, line feed, carriage return. *)
Definition is_ws (c : N) : bool :=
  N.eqb c 32 || N.eqb c 9 || N.eqb c 10 || N.eqb c 13.

Definition is_digit (c : N) : bool := in_range 48 57 c.

Definition hex_value (c : N) : option N :=
  if in_range 48 57 c then Some (c - 48)%N
  else if in_range 97 102 c then Some (c - 87)%N
  else if in_range 65 70 c then Some (c - 55)%N
  else None.

Definition digits_value (ds : pystr) : Z :=
  foldl (fun acc c => 10 * acc + Z.of_N (c - 48))%Z 0%Z ds.

Definition int_of_lexeme (lx : pystr) : Z :=
  match lx with
  | 45%N :: ds => (- digits_value ds)%Z
  | _ => digits_value lx
  end.

(** The token of a number that may end here, if it may. *)
Definition num_token (ph : num_phase) (lx : pystr) : option token :=
  match ph with
  | NZero | NInt => Some (TInt (int_of_lexeme lx))
  | NFrac | NExpDigits => Some (TFloat lx)
  | NSign | NDot | NExp | NExpSign => None
  end.

Definition lex_idle (toks : list token) (c : N) : option (list token * lex_state) :=
  if is_ws c then Some (toks, LIdle)
  else if N.eqb c 123 then Some (toks ++ [TLBrace], LIdle)
  else if N.eqb c 125 then Some (toks ++ [TRBrace], LIdle)
  else if N.eqb c 91 then Some (toks ++ [TLBracket], LIdle)
  else if N.eqb c 93 then Some (toks ++ [TRBracket], LIdle)
  else if N.eqb c 58 then Some (toks ++ [TColon], LIdle)
  else if N.eqb c 44 then Some (toks ++ [TComma], LIdle)
  else if N.eqb c 34 then Some (toks, LStr [] None SPlain)
  else if N.eqb c 45 then Some (toks, LNum NSign [c])
  else if N.eqb c 48 then Some (toks, LNum NZero [c])
  else if in_range 49 57 c then Some (toks, LNum NInt [c])
  else if N.eqb c 116 then Some (toks, LWord (lit "rue") TTrue)
  else if N.eqb c 102 then Some (toks, LWord (lit "alse") TFalse)
  else if N.eqb c 110 then Some (toks, LWord (lit "ull") TNull)
  else if N.eqb c 78 then Some (toks, LWord (lit "aN") (TFloat (lit "NaN")))
  else if N.eqb c 73 then Some (toks, LWord (lit "nfinity") (TFloat (lit "Infinity")))
  else None.

Definition lex_num (toks : list token) (ph : num_phase) (lx : pystr) (c : N)
  : option (list token * lex_state) :=
  let more ph' := Some (toks, LNum ph' (lx ++ [c])) in
  let stop := match num_token ph lx with
              | Some t => lex_idle (toks ++ [t]) c
              | None => None
              end in
  let is_e := N.eqb c 101 || N.eqb c 69 in
  match ph with
  | NSign => if N.eqb c 48 then more NZero
             else if in_range 49 57 c then more NInt
             else if N.eqb c 73
                  then Some (toks, LWord (lit "nfinity") (TFloat (lit "-Infinity")))
             else None
  | NZero => if N.eqb c 46 then more NDot else if is_e then more NExp else stop
  | NInt => if is_digit c then more NInt
            else if N.eqb c 46 then more NDot else if is_e then more NExp else stop
  | NDot => if is_digit c then more NFrac else None
  | NFrac => if is_digit c then more NFrac else if is_e then more NExp else stop
  | NExp => if N.eqb c 43 || N.eqb c 45 then more NExpSign
            else if is_digit c then more NExpDigits else None
  | NExpSign => if is_digit c then more NExpDigits else None
  | NExpDigits => if is_digit c then more NExpDigits else stop
  end.

Definition unescape (c : N) : option N :=
  if N.eqb c 34 then Some 34%N
  else if N.eqb c 92 then Some 92%N
  else if N.eqb c 47 then Some 47%N
  else if N.eqb c 98 then Some 8%N
  else if N.eqb c 102 then Some 12%N
  else if N.eqb c 110 then Some 10%N
  else if N.eqb c 114 then Some 13%N
  else if N.eqb c 116 then Some 9%N
  else None.

Definition is_high (v : N) : bool := in_range 55296 56319 v.
Definition is_low (v : N) : bool := in_range 56320 57343 v.
Definition pair_value (h l : N) : N :=
  (65536 + (h - 55296) * 1024 + (l - 56320))%N.

(** A high surrogate written as an escape waits in [hi] for the low
    surrogate escape that may follow it. *)
Definition flush (acc : pystr) (hi : option N) : pystr :=
  match hi with Some h => acc ++ [h] | None => acc end.

Definition lex_str (toks : list token) (acc : pystr) (hi : option N)
    (m : str_mode) (c : N) : option (list token * lex_state) :=
  match m with
  | SPlain =>
      if N.eqb c 34 then Some (toks ++ [TString (flush acc hi)], LIdle)
      else if N.eqb c 92 then Some (toks, LStr acc hi SEsc)
      else if (c <? 32)%N then None
      else Some (toks, LStr (flush acc hi ++ [c]) None SPlain)
  | SEsc =>
      if N.eqb c 117 then Some (toks, LStr acc hi (SHex 0 0))
      else match unescape c with
           | Some x => Some (toks, LStr (flush acc hi ++ [x]) None SPlain)
           | None => None
           end
  | SHex k v =>
      match hex_value c with
      | None => None
      | Some d =>
          let v' := (16 * v + d)%N in
          if Nat.eqb k 3 then
            match hi with
            | Some h =>
                if is_low v' then Some (toks, LStr (acc ++ [pair_value h v']) None SPlain)
                else if is_high v' then Some (toks, LStr (acc ++ [h]) (Some v') SPlain)
                else Some (toks, LStr (acc ++ [h; v']) None SPlain)
            | None =>
                if is_high v' then Some (toks, LStr acc (Some v') SPlain)
                else Some (toks, LStr (acc ++ [v']) None SPlain)
            end
          else Some (toks, LStr acc hi (SHex (S k) v'))
      end
  end.

Definition lex_word (toks : list token) (todo : pystr) (tok : token) (c : N)
  : option (list token * lex_state) :=
  match todo with
  | [] => None
  | x :: todo' =>
      if N.eqb c x then
        match todo' with
        | [] => Some (toks ++ [tok], LIdle)
        | _ => Some (toks, LWord todo' tok)
        end
      else None
  end.

Definition lex_step (cfg : list token * lex_state) (c : N)
  : option (list token * lex_state) :=
  let (toks, st) := cfg in
  match st with
  | LIdle => lex_idle toks c
  | LWord todo tok => lex_word toks todo tok c
  | LNum ph lx => lex_num toks ph lx c
  | LStr acc hi m => lex_str toks acc hi m c
  end.

Fixpoint lex_run (cfg : list token * lex_state) (s : pystr)
  : option (list token * lex_state) :=
  match s with
  | [] => Some cfg
  | c :: r => match lex_step cfg c with
              | Some cfg' => lex_run cfg' r
              | None => None
              end
  end.

Definition lex_finish (cfg : list token * lex_state) : option (list token) :=
  let (toks, st) := cfg in
  match st with
  | LIdle => Some toks
  | LNum ph lx => match num_token ph lx with
                  | Some t => Some (toks ++ [t])
                  | None => None
                  end
  | LWord _ _ | LStr _ _ _ => None
  end.

Definition lex (s : pystr) : option (list token) :=
  match lex_run ([], LIdle) s with
  | Some cfg => lex_finish cfg
  | None => None
  end.

(** The containers being built, innermost first. *)
Inductive frame :=
| FArr (items : list json)
| FObj (members : gmap pystr json) (key : pystr).

Inductive pstate :=
| PValue (stk : list frame)
| PArrFirst (stk : list frame)
| PAfterElem (items : list json) (stk : list frame)
| PObjFirst (stk : list frame)
| PObjKey (members : gmap pystr json) (stk : list frame)
| PColon (members : gmap pystr json) (key : pystr) (stk : list frame)
| PAfterMember (members : gmap pystr json) (stk : list frame)
| PDone (v : json).

(** A value is complete: hand it to the container that waits for it.  A
    key that comes twice keeps its last value, as in [dict]. *)
Definition reduce (v : json) (stk : list frame) : pstate :=
  match stk with
  | [] => PDone v
  | FArr items :: stk' => PAfterElem (items ++ [v]) stk'
  | FObj m k :: stk' => PAfterMember (<[k := v]> m) stk'
  end.

Definition parse_value (stk : list frame) (t : token) : option pstate :=
  match t with
  | TNull => Some (reduce JNull stk)
  | TTrue => Some (reduce (JBool true) stk)
  | TFalse => Some (reduce (JBool false) stk)
  | TInt z => Some (reduce (JInt z) stk)
  | TFloat lx => Some (reduce (JFloat lx) stk)
  | TString s => Some (reduce (JStr s) stk)
  | TLBracket => Some (PArrFirst stk)
  | TLBrace => Some (PObjFirst stk)
  | TRBrace | TRBracket | TColon | TComma => None
  end.

Definition parse_step (st : pstate) (t : token) : option pstate :=
  match st with
  | PValue stk => parse_value stk t
  | PArrFirst stk =>
      match t with
      | TRBracket => Some (reduce (JList []) stk)
      | _ => parse_value (FArr [] :: stk) t
      end
  | PAfterElem items stk =>
      match t with
      | TComma => Some (PValue (FArr items :: stk))
      | TRBracket => Some (reduce (JList items) stk)
      | _ => None
      end
  | PObjFirst stk =>
      match t with
      | TRBrace => Some (reduce (JObject ∅) stk)
      | TString k => Some (PColon ∅ k stk)
      | _ => None
      end
  | PObjKey m stk =>
      match t with
      | TString k => Some (PColon m k stk)
      | _ => None
      end
  | PColon m k stk =>
      match t with
      | TColon => Some (PValue (FObj m k :: stk))
      | _ => None
      end
  | PAfterMember m stk =>
      match t with
      | TComma => Some (PObjKey m stk)
      | TRBrace => Some (reduce (JObject m) stk)
      | _ => None
      end
  | PDone _ => None
  end.

Fixpoint parse_run (st : pstate) (ts : list token) : option pstate :=
  match ts with
  | [] => Some st
  | t :: r => match parse_step st t with
              | Some st' => parse_run st' r
              | None => None
              end
  end.

Definition parse (ts : list token) : option json :=
  match parse_run (PValue []) ts with
  | Some (PDone v) => Some v
  | _ => None
  end.

(** [json.loads(s)]; [None] where it raises [JSONDecodeError]. *)
Definition loads (s : pystr) : option json :=
  match lex s with
  | Some ts => parse ts
  | None => None
  end.

End Json.

(** ** Text normalizer (main.py, [_strip_code_fences]) *)

Definition FENCE : pystr := lit "```".

Definition _strip_code_fences (text : pystr) : pystr :=
  let text := strip text in
  if startswith FENCE text then
    let lines := splitlines text in
    let lines := match lines with
                 | first :: rest => if startswith FENCE first then rest else lines
                 | [] => lines
                 end in
    let lines := match last lines with
                 | Some final => if startswith FENCE (strip final)
                                 then removelast lines else lines
                 | None => lines
                 end in
    strip (join [Ch.LF] lines)
  else text.

(** Lines 125-126 of main.py: fences off, then three quotation marks
    replaced by their ASCII counterparts. *)
Definition preprocess (text : pystr) : pystr :=
  replace Ch.RSQUO Ch.APOS
    (replace Ch.RDQUO Ch.DQUOTE
       (replace Ch.LDQUO Ch.DQUOTE (_strip_code_fences text))).

(** ** Multi-strategy JSON extractor (main.py, [safe_json_from_text]) *)

(** [re.search] of the pattern brace, any characters, brace, with
    [re.DOTALL]: the leftmost opening brace from which the pattern
    matches, the greedy star giving back characters until a closing brace
    ends the match. *)
Fixpoint match_rest (s : pystr) : option pystr :=
  match s with
  | [] => None
  | c :: r => match match_rest r with
              | Some m => Some (c :: m)
              | None => if N.eqb c Ch.RBRACE then Some [c] else None
              end
  end.

Fixpoint re_search_braces (text : pystr) : option pystr :=
  match text with
  | [] => None
  | c :: r =>
      if N.eqb c Ch.LBRACE then
        match match_rest r with
        | Some m => Some (c :: m)
        | None => re_search_braces r
        end
      else re_search_braces r
  end.

Definition MSG_EMPTY : pystr := lit "Empty model response".
Definition MSG_NO_JSON : pystr := lit "Could not parse JSON from model response".

Section Extractor.

(** The decoder in use; [None] stands for any exception it raises. *)
Variable json_loads : pystr -> option json.

(** The loop of lines 147-157: [seen] is [text[start:i]], and the
    candidate at a closing brace is [text[start:i + 1]].  The loop ends at
    the first brace that brings the depth back to zero, whether the
    candidate decodes ([return]) or not ([break]). *)
Fixpoint scan_braces (depth : Z) (seen rest : pystr) : option json :=
  match rest with
  | [] => None
  | ch :: rest' =>
      let seen' := seen ++ [ch] in
      if N.eqb ch Ch.LBRACE then scan_braces (depth + 1) seen' rest'
      else if N.eqb ch Ch.RBRACE then
        let depth := (depth - 1)%Z in
        if (depth =? 0)%Z then json_loads seen'
        else scan_braces depth seen' rest'
      else scan_braces depth seen' rest'
  end.

Definition safe_json_from_text (text : option pystr) : result json :=
  match text with
  | None => Raise (ValueError MSG_EMPTY)
  | Some text =>
      let text := preprocess text in
      match json_loads text with
      | Some v => Ok v
      | None =>
          let greedy := match re_search_braces text with
                        | Some candidate => json_loads candidate
                        | None => None
                        end in
          match greedy with
          | Some v => Ok v
          | None =>
              let start := find Ch.LBRACE text in
              let scanned := if (start =? -1)%Z then None
                             else scan_braces 0 [] (slice_from start text) in
              match scanned with
              | Some v => Ok v
              | None => Raise (ValueError MSG_NO_JSON)
              end
          end
      end
  end.

End Extractor.

(** ** Record canonicalizer (main.py, [canonicalize_record]) *)

Definition fields : list pystr :=
  lit <$> ["amount"; "currency"; "due_date"; "description"; "company"; "contact"]%string.

Section Canonicalizer.

(** [repr] of a float and of a container are the interpreter's own. *)
Variable float_repr : pystr -> pystr.
Variable container_repr : json -> pystr.

(** [str(v)] *)
Definition py_str (v : json) : pystr :=
  match v with
  | JNull => lit "None"
  | JBool true => lit "True"
  | JBool false => lit "False"
  | JInt z => lit (DecimalString.NilZero.string_of_int (Z.to_int z))
  | JFloat lx => float_repr lx
  | JStr s => s
  | JList _ | JObject _ => container_repr v
  end.

(** [isinstance(v, (int, float))]; [bool] is a subclass of [int]. *)
Definition is_int_or_float (v : json) : bool :=
  match v with
  | JBool _ | JInt _ | JFloat _ => true
  | _ => false
  end.

(** One turn of the loop over [fields]. *)
Definition canonical_field (m : gmap pystr json) (k : pystr) : pystr :=
  let v := default (JStr []) (m !! k) in
  let v := match v with JNull => JStr [] | _ => v end in
  let v := if bool_decide (k = lit "amount") && is_int_or_float v
           then JStr (py_str v) else v in
  strip (py_str v).

(** A value that is not a [dict] has no [get]. *)
Definition canonicalize_record (d : json) : result (gmap pystr pystr) :=
  match d with
  | JObject m =>
      Ok (foldl (fun out k => <[k := canonical_field m k]> out) ∅ fields)
  | _ => Raise AttributeError
  end.

End Canonicalizer.

(** ** Parameter normalizer (main.py, [normalize_for_gpt5]) *)

Definition MAX_TOKENS : pystr := lit "max_tokens".
Definition MAX_COMPLETION_TOKENS : pystr := lit "max_completion_tokens".

Definition has_key {V} (k : pystr) (d : gmap pystr V) : bool :=
  match d !! k with Some _ => true | None => false end.

(** [body.get(key, "")] *)
Definition get_or_empty (key : pystr) (body : gmap pystr json) : json :=
  default (JStr []) (body !! key).

Definition normalize_for_gpt5 (body : gmap pystr json) : result (gmap pystr json) :=
  match get_or_empty (lit "model") body with
  | JStr model =>
      if startswith (lit "gpt-5") model
         && has_key MAX_TOKENS body
         && negb (has_key MAX_COMPLETION_TOKENS body)
      then
        match body !! MAX_TOKENS with
        | Some v => Ok (<[MAX_COMPLETION_TOKENS := v]> (delete MAX_TOKENS body))
        | None => Raise KeyError
        end
      else Ok body
  | _ => Raise AttributeError
  end.

(** ** Provider dispatch (main.py, [is_openrouter_model],
       [forward_to_upstream]) *)

Definition is_openrouter_model (model : pystr) : bool :=
  contains Ch.SLASH model || endswith (lit ":free") model.

Inductive provider := OpenAI | OpenRouter.

Definition provider_of (model : pystr) : provider :=
  if is_openrouter_model model then OpenRouter else OpenAI.

Definition OPENAI_URL : pystr := lit "https://api.openai.com/v1/chat/completions".
Definition OPENROUTER_URL : pystr := lit "https://openrouter.ai/api/v1/chat/completions".

Definition upstream_url (p : provider) : pystr :=
  match p with OpenAI => OPENAI_URL | OpenRouter => OPENROUTER_URL end.

Record credentials := {
  OPENAI_API_KEY : option pystr;
  OPENROUTER_API_KEY : option pystr
}.

Definition api_key (env : credentials) (p : provider) : option pystr :=
  match p with OpenAI => OPENAI_API_KEY env | OpenRouter => OPENROUTER_API_KEY env end.

Definition key_not_set (p : provider) : pystr :=
  match p with
  | OpenAI => lit "OPENAI_API_KEY not set"
  | OpenRouter => lit "OPENROUTER_API_KEY not set"
  end.

Record httpx_response := {
  status_code : Z;
  text : pystr
}.

(** What [is_openrouter_model] does with the [model] entry of a body,
    whatever its type: a membership test that holds ends the [or]; without
    it a value that is not a [str] has no [endswith], and a value that is
    no container has no [in]. *)
Definition use_openrouter (model : json) : result bool :=
  match model with
  | JStr m => Ok (is_openrouter_model m)
  | JList items =>
      if existsb (fun v => match v with
                           | JStr s => bool_decide (s = [Ch.SLASH])
                           | _ => false
                           end) items
      then Ok true else Raise AttributeError
  | JObject m => if has_key [Ch.SLASH] m then Ok true else Raise AttributeError
  | _ => Raise TypeError
  end.

Section Upstream.

Variable env : credentials.

(** The provider's answer to one [POST]: a response, or an exception of
    the client. *)
Variable post : pystr -> gmap pystr pystr -> gmap pystr json -> result httpx_response.

Definition forward_to_upstream (body : gmap pystr json) : result httpx_response :=
  bind (use_openrouter (get_or_empty (lit "model") body)) (fun openrouter =>
  let p := if openrouter then OpenRouter else OpenAI in
  let headers : gmap pystr pystr := {[ lit "Content-Type" := lit "application/json" ]} in
  match api_key env p with
  | None | Some [] => Raise (HTTPException 500 (key_not_set p))
  | Some key =>
      let headers := <[lit "Authorization" := lit "Bearer " ++ key]> headers in
      post (upstream_url p) headers body
  end).

End Upstream.

(** ** Append-only record store (main.py, [ensure_csv_header] and the
       [csv.DictWriter] calls)

    A file of the store is held as the rows written to it.  Every row a
    [csv] writer emits takes at least its line terminator, so a file has
    size zero exactly when it has no row.  Directories and failures of
    the file system are left out: every write succeeds. *)

Abbreviation row := (list pystr).
Abbreviation filesystem := (gmap pystr (list row)).

(** [os.path.exists(path)] and [os.path.getsize(path) == 0] decide; the
    mode [w] starts the file anew and [writeheader] writes the names. *)
Definition ensure_csv_header (path : pystr) (fieldnames : list pystr)
    (fs : filesystem) : filesystem :=
  let need_header := match fs !! path with
                     | None => true
                     | Some rows => bool_decide (rows = [])
                     end in
  if need_header then <[path := [fieldnames]]> fs else fs.

(** [DictWriter.writerow], with the writer's default [extrasaction]: a key
    outside [fieldnames] is refused, a missing one is written empty. *)
Definition dict_to_list (fieldnames : list pystr) (rowdict : gmap pystr pystr)
  : result row :=
  if bool_decide (dom rowdict ⊆ list_to_set (C := gset pystr) fieldnames)
  then Ok ((fun k => default [] (rowdict !! k)) <$> fieldnames)
  else Raise (ValueError (lit "dict contains fields not in fieldnames")).

(** The file opened in mode [a] and one row written to it. *)
Definition append_row (path : pystr) (fieldnames : list pystr)
    (rowdict : gmap pystr pystr) (fs : filesystem) : result unit * filesystem :=
  let fs := <[path := default [] (fs !! path)]> fs in
  match dict_to_list fieldnames rowdict with
  | Ok r => (Ok tt, <[path := default [] (fs !! path) ++ [r]]> fs)
  | Raise e => (Raise e, fs)
  end.

(** ** The prefill endpoint (main.py, [prefill]) *)

Record PrefillIn := {
  email_text : pystr;
  model : option pystr
}.

Record JSONResponse := {
  response_status : Z;
  response_content : json
}.

(** The body of every answer: [success] and [message]. *)
Definition answer (success : bool) (message : pystr) : json :=
  JObject (<[lit "success" := JBool success]> {[ lit "message" := JStr message ]}).

Definition SOMETHING_WENT_WRONG : json := answer false (lit "something went wrong").

Definition SYSTEM_PROMPT : pystr :=
  lit "Extract structured billing fields from the email. "
  ++ lit "Return ONLY a single JSON object with exactly these keys: "
  ++ lit "amount, currency, due_date, description, company, contact. "
  ++ lit "If unknown, use an empty string. "
  ++ lit "due_date must be YYYY-MM-DD; amount must be numeric characters only (no currency symbols). "
  ++ lit "No code fences, no extra text.".

Definition quoted (s : string) : pystr := [Ch.DQUOTE] ++ lit s ++ [Ch.DQUOTE].

Definition example_member (k v : string) : pystr := quoted k ++ lit ":" ++ quoted v.

Definition user_prompt (email : pystr) : pystr :=
  lit "Email:" ++ [Ch.LF] ++ lit "---" ++ [Ch.LF]
  ++ email ++ [Ch.LF]
  ++ lit "---" ++ [Ch.LF; Ch.LF]
  ++ lit "Example JSON:" ++ [Ch.LF]
  ++ lit "{"
  ++ example_member "amount" "123.45" ++ lit ","
  ++ example_member "currency" "EUR" ++ lit ","
  ++ example_member "due_date" "2025-08-31" ++ lit ","
  ++ example_member "description" "August invoice for cloud services" ++ lit ","
  ++ example_member "company" "Acme GmbH" ++ lit ","
  ++ example_member "contact" "billing@acme.com"
  ++ lit "}".

Definition message (role content : pystr) : json :=
  JObject (<[lit "role" := JStr role]> {[ lit "content" := JStr content ]}).

Definition prefill_body (model email : pystr) : gmap pystr json :=
  <[lit "model" := JStr model]>
  (<[lit "messages" := JList [message (lit "system") SYSTEM_PROMPT;
                               message (lit "user") (user_prompt email)]]>
  (<[lit "response_format" := JObject {[ lit "type" := JStr (lit "json_object") ]}]>
  {[ MAX_COMPLETION_TOKENS := JInt 1000 ]})).

(** [v[key]] for a string key and [v[0]], on whatever was decoded. *)
Definition getitem (v : json) (key : pystr) : result json :=
  match v with
  | JObject m => match m !! key with
                 | Some x => Ok x
                 | None => Raise KeyError
                 end
  | _ => Raise TypeError
  end.

Definition getitem_0 (v : json) : result json :=
  match v with
  | JList (x :: _) => Ok x
  | JStr (c :: _) => Ok (JStr [c])
  | JList [] | JStr [] => Raise IndexError
  | JObject _ => Raise KeyError
  | _ => Raise TypeError
  end.

(** [resp["choices"][0]["message"]["content"]] *)
Definition message_content (resp : json) : result json :=
  bind (getitem resp (lit "choices")) (fun choices =>
  bind (getitem_0 choices) (fun choice =>
  bind (getitem choice (lit "message")) (fun msg =>
  getitem msg (lit "content")))).

(** The extractor on the [content] of the answer: [None], a [str], or a
    value that has no [strip]. *)
Definition safe_json_from_content (raw_text : json) : result json :=
  match raw_text with
  | JNull => safe_json_from_text Json.loads None
  | JStr s => safe_json_from_text Json.loads (Some s)
  | _ => Raise AttributeError
  end.

Definition CSV_PATH : pystr := lit "data.csv".

(** [payload.model or "gpt-5-mini"] *)
Definition model_or_default (m : option pystr) : pystr :=
  match m with
  | None | Some [] => lit "gpt-5-mini"
  | Some m => m
  end.

Section Prefill.

Variable float_repr : pystr -> pystr.
Variable container_repr : json -> pystr.
Variable env : credentials.
Variable post : pystr -> gmap pystr pystr -> gmap pystr json -> result httpx_response.

(** Lines 278-301: the answer had status 200. *)
Definition store_extracted (upstream : httpx_response) (fs : filesystem)
  : result JSONResponse * filesystem :=
  match Json.loads (text upstream) with
  | None => (Raise JSONDecodeError, fs)
  | Some resp =>
      match message_content resp with
      | Raise e => (Raise e, fs)
      | Ok raw_text =>
          match safe_json_from_content raw_text with
          | Raise _ => (Ok {| response_status := 502;
                              response_content := SOMETHING_WENT_WRONG |}, fs)
          | Ok parsed =>
              match canonicalize_record float_repr container_repr parsed with
              | Raise e => (Raise e, fs)
              | Ok record =>
                  let fs := ensure_csv_header CSV_PATH fields fs in
                  match append_row CSV_PATH fields record fs with
                  | (Raise e, fs) => (Raise e, fs)
                  | (Ok _, fs) =>
                      (Ok {| response_status := 200;
                             response_content :=
                               answer true (lit "data extracted and written") |}, fs)
                  end
              end
          end
      end
  end.

(** The handler: the answer it returns or the exception that leaves it,
    and the store afterwards. *)
Definition prefill (payload : PrefillIn) (fs : filesystem)
  : result JSONResponse * filesystem :=
  let email := strip (email_text payload) in
  match email with
  | [] => (Ok {| response_status := 400;
                 response_content := answer false (lit "email_text is required") |}, fs)
  | _ =>
      let model := model_or_default (model payload) in
      match normalize_for_gpt5 (prefill_body model email) with
      | Raise e => (Raise e, fs)
      | Ok body =>
          match forward_to_upstream env post body with
          | Raise HTTPError =>
              (Ok {| response_status := 502;
                     response_content := SOMETHING_WENT_WRONG |}, fs)
          | Raise e => (Raise e, fs)
          | Ok upstream =>
              if negb (status_code upstream =? 200)%Z then
                (Ok {| response_status := status_code upstream;
                       response_content := SOMETHING_WENT_WRONG |}, fs)
              else store_extracted upstream fs
          end
      end
  end.

End Prefill.

(** * Notions the properties are stated with *)

(** ** The decoder *)

(** A keyword being read by the tokenizer has no blank left to read. *)
Definition wf_state (st : Json.lex_state) : Prop :=
  match st with
  | Json.LWord todo _ => Forall (fun c => isspace c = false) todo
  | _ => True
  end.

(** ** Payloads *)

(** How many of the two token-limit names a payload carries. *)
Definition token_limits (body : gmap pystr json) : nat :=
  (if has_key MAX_TOKENS body then 1 else 0)
  + (if has_key MAX_COMPLETION_TOKENS body then 1 else 0).

(** A request that names a model and messages and no token limit, as the
    chat endpoint accepts it. *)
Definition body_without_limit : gmap pystr json :=
  <[lit "model" := JStr (lit "gpt-5-mini")]> {[ lit "messages" := JList [] ]}.

(** The same request with both token limits. *)
Definition body_with_both_limits : gmap pystr json :=
  <[MAX_TOKENS := JInt 100]> (<[MAX_COMPLETION_TOKENS := JInt 200]> body_without_limit).

(** ** Records and requests *)

(** The value a field gets from its source. *)
Definition field_of_source (str : json -> pystr) (source : option json) : pystr :=
  match source with
  | None | Some JNull => []
  | Some v => strip (str v)
  end.

(** A deployment with both credentials. *)
Definition both_keys : credentials :=
  {| OPENAI_API_KEY := Some (lit "sk-test"); OPENROUTER_API_KEY := Some (lit "or-test") |}.

(** A provider that answers every request with [r]. *)
Definition always (r : httpx_response)
  : pystr -> gmap pystr pystr -> gmap pystr json -> result httpx_response :=
  fun _ _ _ => Ok r.

(** A chat completion whose message content is the given text. *)
Definition completion (content : string) : pystr :=
  lit "{" ++ quoted "choices" ++ lit ":[{" ++ quoted "message" ++ lit ":{"
  ++ quoted "content" ++ lit ":" ++ quoted content ++ lit "}}]}".

(** A request to the prefill endpoint with the default model. *)
Definition pay_request : PrefillIn :=
  {| email_text := lit "Please pay 123.45 EUR by 2025-08-31"; model := None |}.

(** ** The three strategies, as the specification words them *)

(** [s.rfind(c)]: the index of the last [c], or [-1]. *)
Fixpoint rfind (c : N) (s : pystr) : Z :=
  match s with
  | [] => -1
  | x :: r => let j := rfind c r in
              if (j =? -1)%Z then (if N.eqb x c then 0 else -1) else (j + 1)%Z
  end.

(** [s[i:j]] for [0 <= i <= j] *)
Definition slice (i j : Z) (s : pystr) : pystr :=
  take (Z.to_nat (j - i)) (drop (Z.to_nat i) s).

(** The substring from the first opening brace to the last closing
    brace, when the latter comes after the former. *)
Definition first_to_last_brace (text : pystr) : option pystr :=
  let i := find Ch.LBRACE text in
  let j := rfind Ch.RBRACE text in
  if (0 <=? i)%Z && (i <? j)%Z then Some (slice i (j + 1) text) else None.

(** The nesting depth at the end of [s]: up on an opening brace, down on
    a closing one. *)
Fixpoint brace_depth (s : pystr) : Z :=
  match s with
  | [] => 0
  | c :: r => ((if N.eqb c Ch.LBRACE then 1
                else if N.eqb c Ch.RBRACE then -1 else 0) + brace_depth r)%Z
  end.

(** The prefixes of [s] that are not empty, shortest first. *)
Fixpoint prefixes (s : pystr) : list pystr :=
  match s with
  | [] => []
  | c :: r => [c] :: (cons c <$> prefixes r)
  end.

(** The first balanced span: the shortest stretch that starts at the
    first opening brace and ends where the depth is back to zero. *)
Definition first_balanced_span (text : pystr) : option pystr :=
  let start := find Ch.LBRACE text in
  if (start =? -1)%Z then None
  else head (filter (fun p => brace_depth p = 0%Z) (prefixes (slice_from start text))).

Section Strategies.

Variable json_loads : pystr -> option json.

Definition direct_decode (text : pystr) : option json := json_loads text.

Definition greedy_decode (text : pystr) : option json :=
  first_to_last_brace text ≫= json_loads.

Definition balanced_decode (text : pystr) : option json :=
  first_balanced_span text ≫= json_loads.

Definition strategies : list (pystr -> option json) :=
  [direct_decode; greedy_decode; balanced_decode].

(** The result of the first strategy that succeeds. *)
Fixpoint first_success (ss : list (pystr -> option json)) (text : pystr) : option json :=
  match ss with
  | [] => None
  | s :: rest => match s text with
                 | Some v => Some v
                 | None => first_success rest text
                 end
  end.

End Strategies.

(** ** Texts *)

(** The three quotation marks line 126 replaces. *)
Definition smart_quote (c : N) : bool :=
  N.eqb c Ch.LDQUO || N.eqb c Ch.RDQUO || N.eqb c Ch.RSQUO.

(** The JSON text of a string that holds one left double quotation
    mark. *)
Definition quoted_ldquo : pystr := [Ch.DQUOTE; Ch.LDQUO; Ch.DQUOTE].

(** [t.split(LF)] with [cur] before it. *)
Fixpoint split_lf (cur : pystr) (s : pystr) : list pystr :=
  match s with
  | [] => [cur]
  | c :: r => if N.eqb c Ch.LF then cur :: split_lf [] r else split_lf (cur ++ [c]) r
  end.

(** A text wrapped in a fenced code block: the opening fence with its
    language tag on a line, the text, the closing fence on a line. *)
Definition fenced (t : pystr) : pystr :=
  lit "```json" ++ [Ch.LF] ++ t ++ [Ch.LF] ++ FENCE.

(** No line boundary but the line feed. *)
Definition lf_only (c : N) : bool := negb (is_linebreak c) || N.eqb c Ch.LF.

(** The JSON text of an object whose one string holds a line separator,
    which JSON allows there unescaped. *)
Definition object_with_line_separator : pystr :=
  lit "{" ++ quoted "a" ++ lit ":"
  ++ [Ch.DQUOTE; 120; Ch.LINE_SEP; 121; Ch.DQUOTE]%N ++ lit "}".

(** A text that itself begins with a fence marker. *)
Definition fence_marker_first : pystr := lit "```{}" ++ [Ch.LF] ++ lit "5".

(** ** The chat endpoint (main.py, [chat_completions]) *)

(** [needle in s] for two strings *)
Fixpoint is_substring (needle s : pystr) : bool :=
  startswith needle s
  || match s with
     | [] => false
     | _ :: r => is_substring needle r
     end.

(** [key in body] on whatever the request body decoded to: a key of a
    [dict], an item of a [list], a substring of a [str]; other values are
    not iterable. *)
Definition contains_key (key : pystr) (body : json) : result bool :=
  match body with
  | JObject m => Ok (has_key key m)
  | JList items =>
      Ok (existsb (fun v => match v with
                            | JStr s => bool_decide (s = key)
                            | _ => false
                            end) items)
  | JStr s => Ok (is_substring key s)
  | _ => Raise TypeError
  end.

Definition FIELDS_REQUIRED : pystr := lit "Fields 'model' and 'messages' are required".

Section Chat.

Variable env : credentials.
Variable post : pystr -> gmap pystr pystr -> gmap pystr json -> result httpx_response.

(** [repr] of the exception of the client, for the detail of the 502. *)
Variable error_repr : pystr.

(** Lines 200-205: the answer decoded and handed back under its own
    status, or its text as the detail of an exception of that status. *)
Definition relay (upstream : httpx_response) : result JSONResponse :=
  match Json.loads (text upstream) with
  | Some data => Ok {| response_status := status_code upstream;
                       response_content := data |}
  | None => Raise (HTTPException (status_code upstream) (text upstream))
  end.

(** The handler on the decoded request body.  A response is the pair of
    its status and content; rendering it is the framework's. *)
Definition chat_completions (body : json) : result JSONResponse :=
  bind (contains_key (lit "model") body) (fun has_model =>
  bind (if has_model then contains_key (lit "messages") body else Ok false)
    (fun has_both =>
  if negb has_both then Raise (HTTPException 400 FIELDS_REQUIRED)
  else
    match body with
    | JObject m =>
        bind (normalize_for_gpt5 m) (fun m =>
        match forward_to_upstream env post m with
        | Raise HTTPError =>
            Raise (HTTPException 502 (lit "Upstream error: " ++ error_repr))
        | Raise e => Raise e
        | Ok upstream => relay upstream
        end)
    | _ => Raise AttributeError
    end)).

End Chat.

(** ** Further notions *)

(** The three replacements of line 126, on one character. *)
Definition ascii_quote (c : N) : N :=
  if N.eqb c Ch.LDQUO then Ch.DQUOTE
  else if N.eqb c Ch.RDQUO then Ch.DQUOTE
  else if N.eqb c Ch.RSQUO then Ch.APOS
  else c.






(** * Properties *)

(** ** Strings *)

Lemma startswith_app (pre s : pystr) : startswith pre (pre ++ s) = true.
Proof.
  induction pre as [|a pre IH]; simpl; [done|].
  by rewrite N.eqb_refl, IH.
Qed.

Lemma startswith_inv (pre s : pystr) :
  startswith pre s = true -> exists r, s = pre ++ r.
Proof.
  revert s. induction pre as [|a pre IH]; intros s H; simpl in *.
  - by exists s.
  - destruct s as [|b s]; [done|].
    apply andb_true_iff in H as [Hab Hs].
    apply N.eqb_eq in Hab as ->.
    destruct (IH _ Hs) as [r ->]. by exists r.
Qed.

Lemma startswith_spec (pre s : pystr) :
  startswith pre s = true <-> exists r, s = pre ++ r.
Proof.
  split; [apply startswith_inv|]. intros [r ->]. apply startswith_app.
Qed.

Lemma endswith_spec (suf s : pystr) :
  endswith suf s = true <-> exists a, s = a ++ suf.
Proof.
  unfold endswith. rewrite startswith_spec. split.
  - intros [r Hr]. exists (rev r).
    rewrite <- (rev_involutive s), Hr, rev_app_distr.
    by rewrite rev_involutive.
  - intros [a ->]. exists (rev a). by rewrite rev_app_distr.
Qed.

Lemma contains_spec (c : N) (s : pystr) :
  contains c s = true <-> exists a b, s = a ++ c :: b.
Proof.
  unfold contains. rewrite existsb_exists. split.
  - intros (x & Hin & Hx). apply N.eqb_eq in Hx as <-.
    apply in_split in Hin as (a & b & ->). by exists a, b.
  - intros (a & b & ->). exists c. split; [|apply N.eqb_refl].
    apply in_or_app. right. by left.
Qed.

(** ** Provider dispatch *)

(** C5.  A model identifier denotes OpenRouter exactly when it contains a
    solidus or ends with the suffix [:free], and OpenAI, the default
    provider, otherwise; the empty identifier and [gpt-4o] go to the
    default provider, [qwen/qwen3-235b-a22b:free] and [anything:free] to
    the alternate one. *)
Theorem provider_of_classifies (model : pystr) :
  (provider_of model = OpenRouter <->
     (exists a b, model = a ++ Ch.SLASH :: b) \/ (exists a, model = a ++ lit ":free"))
  /\ (provider_of model = OpenAI <->
        ~ ((exists a b, model = a ++ Ch.SLASH :: b) \/ (exists a, model = a ++ lit ":free")))
  /\ provider_of (lit "gpt-4o") = OpenAI
  /\ provider_of (lit "") = OpenAI
  /\ provider_of (lit "qwen/qwen3-235b-a22b:free") = OpenRouter
  /\ provider_of (lit "anything:free") = OpenRouter.
Proof.
  assert (Hor : is_openrouter_model model = true <->
                (exists a b, model = a ++ Ch.SLASH :: b)
                \/ (exists a, model = a ++ lit ":free")).
  { unfold is_openrouter_model.
    by rewrite orb_true_iff, contains_spec, endswith_spec. }
  unfold provider_of.
  repeat split; try reflexivity.
  - destruct (is_openrouter_model model); [intros _; by apply Hor | done].
  - intros H. apply Hor in H. by rewrite H.
  - destruct (is_openrouter_model model) eqn:E; [done|].
    intros _ H. apply Hor in H. congruence.
  - intros H. destruct (is_openrouter_model model); [|done].
    exfalso. apply H. by apply Hor.
Qed.

(** ** Parameter normalizer *)

Lemma model_not_max_tokens : lit "model" <> MAX_TOKENS.
Proof. by vm_compute. Qed.

Lemma model_not_max_completion_tokens : lit "model" <> MAX_COMPLETION_TOKENS.
Proof. by vm_compute. Qed.

Lemma max_tokens_not_max_completion_tokens : MAX_TOKENS <> MAX_COMPLETION_TOKENS.
Proof. by vm_compute. Qed.

Create HintDb keys.
#[local] Hint Resolve model_not_max_tokens model_not_max_completion_tokens
  max_tokens_not_max_completion_tokens : keys.

Lemma has_key_insert {V} (k k' : pystr) (v : V) (d : gmap pystr V) :
  has_key k (<[k' := v]> d) = if decide (k' = k) then true else has_key k d.
Proof. unfold has_key. rewrite lookup_insert. by case_decide. Qed.

Lemma has_key_delete {V} (k k' : pystr) (d : gmap pystr V) :
  has_key k (delete k' d) = if decide (k' = k) then false else has_key k d.
Proof. unfold has_key. rewrite lookup_delete. by case_decide. Qed.

(** What the normalizer returns, case by case. *)
Lemma normalize_for_gpt5_cases (body body' : gmap pystr json) :
  normalize_for_gpt5 body = Ok body' ->
  body' = body
  \/ (exists v, body !! MAX_TOKENS = Some v
                /\ body !! MAX_COMPLETION_TOKENS = None
                /\ body' = <[MAX_COMPLETION_TOKENS := v]> (delete MAX_TOKENS body)).
Proof.
  unfold normalize_for_gpt5.
  destruct (get_or_empty _ body) as [| | | |m| |]; try done.
  destruct (startswith _ m && has_key MAX_TOKENS body
            && negb (has_key MAX_COMPLETION_TOKENS body)) eqn:E.
  - apply andb_true_iff in E as [E Hc]. apply andb_true_iff in E as [_ Ht].
    unfold has_key in *.
    destruct (body !! MAX_TOKENS) as [v|] eqn:Hv; [|done].
    destruct (body !! MAX_COMPLETION_TOKENS) eqn:Hw; [done|].
    intros [= <-]. right. by exists v.
  - intros [= <-]. by left.
Qed.

(** A payload the normalizer returned is one it leaves as it is. *)
Lemma normalize_for_gpt5_fixpoint (body body' : gmap pystr json) :
  normalize_for_gpt5 body = Ok body' -> normalize_for_gpt5 body' = Ok body'.
Proof.
  intros H. destruct (normalize_for_gpt5_cases _ _ H) as [->|(v & Hv & Hw & ->)]; [done|].
  unfold normalize_for_gpt5 in *.
  unfold get_or_empty in *.
  rewrite lookup_insert_ne, lookup_delete_ne by auto with keys.
  destruct (default _ (body !! lit "model")); try done.
  rewrite has_key_insert, has_key_delete.
  rewrite decide_False by (apply not_eq_sym; auto with keys).
  rewrite decide_True by done.
  by rewrite andb_false_r.
Qed.

(** C9.  The normalizer is idempotent: applied to its own result it
    returns that result, and where the first application raises, so does
    the composition. *)
Theorem normalize_for_gpt5_idempotent (body : gmap pystr json) :
  bind (normalize_for_gpt5 body) normalize_for_gpt5 = normalize_for_gpt5 body.
Proof.
  destruct (normalize_for_gpt5 body) as [body'|e] eqn:H; simpl; [|done].
  by apply (normalize_for_gpt5_fixpoint body).
Qed.

(** C8, as stated, fails: the normalizer returns a payload without a
    token limit, or with both, as it received it. *)
Lemma normalize_for_gpt5_not_exactly_one :
  (normalize_for_gpt5 body_without_limit = Ok body_without_limit
   /\ has_key MAX_TOKENS body_without_limit = false
   /\ has_key MAX_COMPLETION_TOKENS body_without_limit = false)
  /\ (normalize_for_gpt5 body_with_both_limits = Ok body_with_both_limits
      /\ has_key MAX_TOKENS body_with_both_limits = true
      /\ has_key MAX_COMPLETION_TOKENS body_with_both_limits = true).
Proof. repeat split; vm_compute; reflexivity. Qed.

(** C8, amended.  The normalizer keeps the number of token-limit names a
    payload carries: with exactly one before there is exactly one after,
    never both; and a payload it renamed carries the new name only. *)
Theorem normalize_for_gpt5_token_limits (body body' : gmap pystr json) :
  normalize_for_gpt5 body = Ok body' ->
  token_limits body' = token_limits body
  /\ (token_limits body = 1 ->
      xorb (has_key MAX_TOKENS body') (has_key MAX_COMPLETION_TOKENS body') = true)
  /\ (body' <> body ->
      has_key MAX_TOKENS body' = false /\ has_key MAX_COMPLETION_TOKENS body' = true).
Proof.
  intros H.
  assert (Hrenamed : forall v, body !! MAX_TOKENS = Some v ->
            body !! MAX_COMPLETION_TOKENS = None ->
            has_key MAX_TOKENS (<[MAX_COMPLETION_TOKENS := v]> (delete MAX_TOKENS body)) = false
            /\ has_key MAX_COMPLETION_TOKENS
                 (<[MAX_COMPLETION_TOKENS := v]> (delete MAX_TOKENS body)) = true).
  { intros v Hv Hw. rewrite !has_key_insert, has_key_delete.
    rewrite (decide_True (P := MAX_COMPLETION_TOKENS = MAX_COMPLETION_TOKENS)) by done.
    rewrite decide_False by (apply not_eq_sym; auto with keys).
    by rewrite decide_True. }
  destruct (normalize_for_gpt5_cases _ _ H) as [->|(v & Hv & Hw & ->)].
  - split; [done|]. split; [|done].
    unfold token_limits.
    by destruct (has_key MAX_TOKENS body), (has_key MAX_COMPLETION_TOKENS body).
  - destruct (Hrenamed v Hv Hw) as [H1 H2].
    unfold token_limits. rewrite H1, H2.
    unfold has_key. rewrite Hv, Hw. by repeat split.
Qed.

Lemma normalize_for_gpt5_token_limits_witness :
  token_limits (<[MAX_COMPLETION_TOKENS := JInt 5]>
                  (delete MAX_TOKENS
                     (<[MAX_TOKENS := JInt 5]> body_without_limit)))
  = token_limits (<[MAX_TOKENS := JInt 5]> body_without_limit).
Proof.
  refine (proj1 (normalize_for_gpt5_token_limits
                   (<[MAX_TOKENS := JInt 5]> body_without_limit)
                   (<[MAX_COMPLETION_TOKENS := JInt 5]>
                      (delete MAX_TOKENS
                         (<[MAX_TOKENS := JInt 5]> body_without_limit))) _)).
  vm_compute. reflexivity.
Defined.

(** ** Record canonicalizer *)

Lemma lookup_foldl_insert {V} (f : pystr -> V) (l : list pystr)
    (init : gmap pystr V) (k : pystr) :
  foldl (fun out k => <[k := f k]> out) init l !! k
  = if decide (k ∈ l) then Some (f k) else init !! k.
Proof.
  revert init. induction l as [|a l IH]; intros init.
  - case_decide as H; [by apply elem_of_nil in H | done].
  - change (foldl (fun out k => <[k := f k]> out) (<[a := f a]> init) l !! k
            = if decide (k ∈ a :: l) then Some (f k) else init !! k).
    rewrite IH, lookup_insert.
    destruct (decide (k ∈ l)) as [Hl|Hl].
    + rewrite decide_True; [done|]. by right.
    + destruct (decide (a = k)) as [->|Hne].
      * rewrite decide_True; [done|]. by left.
      * rewrite decide_False; [done|].
        intros [->|?]%elem_of_cons; done.
Qed.

Lemma canonical_field_source (fr : pystr -> pystr) (cr : json -> pystr)
    (m : gmap pystr json) (k : pystr) :
  canonical_field fr cr m k = field_of_source (py_str fr cr) (m !! k).
Proof.
  unfold canonical_field, field_of_source.
  destruct (m !! k) as [v|]; simpl.
  - destruct v as [|[]| | | | |];
      destruct (bool_decide (k = lit "amount")); reflexivity.
  - destruct (bool_decide (k = lit "amount")); reflexivity.
Qed.

(** C4.  On a mapping the canonicalizer does not fail.  Its record has
    the six fields and no other key; a field whose key is absent or null
    is the empty string; every other field, [amount] with a number as
    source included, is the string coercion of its source value with the
    surrounding blanks removed (a number under [amount] is coerced first,
    and the coercion of the string this gives is that string). *)
Theorem canonicalize_record_complete (float_repr : pystr -> pystr)
    (container_repr : json -> pystr) (m : gmap pystr json) :
  exists record,
    canonicalize_record float_repr container_repr (JObject m) = Ok record
    /\ dom record = list_to_set fields
    /\ (forall k, k ∈ fields ->
          record !! k = Some (field_of_source (py_str float_repr container_repr) (m !! k)))
    /\ (forall k, k ∉ fields -> record !! k = None)
    /\ (forall v, m !! lit "amount" = Some v -> is_int_or_float v = true ->
          record !! lit "amount"
          = Some (strip (py_str float_repr container_repr
                           (JStr (py_str float_repr container_repr v))))).
Proof.
  eexists. split; [reflexivity|].
  set (record := foldl _ _ _).
  assert (Hlook : forall k, record !! k
            = if decide (k ∈ fields)
              then Some (field_of_source (py_str float_repr container_repr) (m !! k))
              else None).
  { intros k. unfold record.
    rewrite (lookup_foldl_insert (canonical_field float_repr container_repr m)).
    by rewrite canonical_field_source, lookup_empty. }
  split; [|split; [|split]].
  - apply set_eq. intros k.
    rewrite elem_of_dom, Hlook, elem_of_list_to_set.
    destruct (decide (k ∈ fields)) as [Hk|Hk]; split; intros H; try done.
    all: by destruct H.
  - intros k Hk. by rewrite Hlook, decide_True.
  - intros k Hk. by rewrite Hlook, decide_False.
  - intros v Hv Hnum. rewrite Hlook, decide_True by (by vm_compute; left).
    rewrite Hv. by destruct v.
Qed.

(** ** The prefill endpoint *)

(** C10.  The extractor succeeds on the text of a JSON array and returns
    a list, which is no mapping: the canonicalizer, which calls [get] on
    what it is given, raises on it. *)
Theorem extractor_returns_non_mapping :
  safe_json_from_text Json.loads (Some (lit "[1, 2]")) = Ok (JList [JInt 1; JInt 2])
  /\ is_dict (JList [JInt 1; JInt 2]) = false
  /\ forall float_repr container_repr,
       canonicalize_record float_repr container_repr (JList [JInt 1; JInt 2])
       = Raise AttributeError.
Proof. split; [vm_compute; reflexivity|]. split; reflexivity. Qed.

(** C6, at the failing input: the provider answers 200 and the model's
    text is a JSON array.  Extraction succeeds, the canonicalizer raises
    [AttributeError], no handler of [prefill] catches it, and it leaves
    the endpoint. *)
Theorem prefill_raises_on_array_content (float_repr : pystr -> pystr)
    (container_repr : json -> pystr) (fs : filesystem) :
  prefill float_repr container_repr both_keys
    (always {| status_code := 200; text := completion "[1, 2]" |}) pay_request fs
  = (Raise AttributeError, fs).
Proof. vm_compute. reflexivity. Qed.

(** On success the store gets its header, once, and one row: here the
    model's text is an empty object and the store was empty. *)
Remark prefill_success_appends_row (float_repr : pystr -> pystr)
    (container_repr : json -> pystr) :
  prefill float_repr container_repr both_keys
    (always {| status_code := 200; text := completion "{}" |}) pay_request ∅
  = (Ok {| response_status := 200;
           response_content := answer true (lit "data extracted and written") |},
     {[ CSV_PATH := [fields; [[]; []; []; []; []; []]] ]}).
Proof. vm_compute. reflexivity. Qed.

Lemma normalize_prefill_body (model email : pystr) :
  normalize_for_gpt5 (prefill_body model email) = Ok (prefill_body model email).
Proof.
  unfold normalize_for_gpt5, get_or_empty.
  assert (Hm : prefill_body model email !! lit "model" = Some (JStr model))
    by apply lookup_insert_eq.
  assert (Hc : has_key MAX_COMPLETION_TOKENS (prefill_body model email) = true).
  { unfold prefill_body. rewrite !has_key_insert.
    rewrite !decide_False by (by vm_compute).
    unfold has_key. by rewrite lookup_singleton_eq. }
  rewrite Hm, Hc. simpl. by rewrite andb_false_r.
Qed.

(** C7.  When the provider answers with a status other than 200, or
    answers 200 with a text on which extraction fails, [prefill] returns
    the uniform failure payload and the store is as it was: no header, no
    row. *)
Theorem prefill_failure_keeps_store (float_repr : pystr -> pystr)
    (container_repr : json -> pystr) (env : credentials)
    (post : pystr -> gmap pystr pystr -> gmap pystr json -> result httpx_response)
    (payload : PrefillIn) (fs : filesystem) (upstream : httpx_response) :
  strip (email_text payload) <> [] ->
  forward_to_upstream env post
    (prefill_body (model_or_default (model payload)) (strip (email_text payload)))
  = Ok upstream ->
  (status_code upstream <> 200%Z
   \/ (exists resp raw_text,
         Json.loads (text upstream) = Some resp
         /\ message_content resp = Ok raw_text
         /\ raises (safe_json_from_content raw_text) = true)) ->
  prefill float_repr container_repr env post payload fs
  = (Ok {| response_status := if decide (status_code upstream = 200%Z)
                              then 502%Z else status_code upstream;
           response_content := SOMETHING_WENT_WRONG |}, fs).
Proof.
  intros Hemail Hup Hfail. unfold prefill.
  destruct (strip (email_text payload)) as [|c email] eqn:He; [done|].
  rewrite normalize_prefill_body, Hup.
  destruct (decide (status_code upstream = 200%Z)) as [H200|H200].
  - destruct Hfail as [?|(resp & raw & Hresp & Hraw & Hx)]; [done|].
    rewrite H200. simpl. unfold store_extracted. rewrite Hresp, Hraw.
    by destruct (safe_json_from_content raw).
  - apply Z.eqb_neq in H200. by rewrite H200.
Qed.

Lemma prefill_failure_keeps_store_witness :
  prefill (fun lx => lx) (fun _ => []) both_keys
    (always {| status_code := 200; text := completion "no JSON here" |}) pay_request ∅
  = (Ok {| response_status := 502; response_content := SOMETHING_WENT_WRONG |}, ∅).
Proof.
  apply (prefill_failure_keeps_store (fun lx => lx) (fun _ => []) both_keys
           (always {| status_code := 200; text := completion "no JSON here" |})
           pay_request ∅ {| status_code := 200; text := completion "no JSON here" |}).
  - vm_compute. discriminate.
  - vm_compute. reflexivity.
  - right.
    exists (JObject {[ lit "choices" :=
              JList [JObject {[ lit "message" :=
                JObject {[ lit "content" := JStr (lit "no JSON here") ]} ]}] ]}),
           (JStr (lit "no JSON here")).
    split; [vm_compute; reflexivity|]. split; vm_compute; reflexivity.
Defined.

(** ** Multi-strategy JSON extractor *)

Lemma find_range (c : N) (s : pystr) : find c s = (-1)%Z \/ (0 <= find c s)%Z.
Proof.
  induction s as [|x s IH]; simpl; [by left|].
  destruct (N.eqb x c); [by right|].
  destruct (Z.eqb_spec (find c s) (-1)); [by left|right; lia].
Qed.

Lemma rfind_range (c : N) (s : pystr) : rfind c s = (-1)%Z \/ (0 <= rfind c s)%Z.
Proof.
  induction s as [|x s IH]; simpl; [by left|].
  destruct (Z.eqb_spec (rfind c s) (-1)).
  - destruct (N.eqb x c); [by right|by left].
  - right; lia.
Qed.

(** The greedy star gives back characters as far as the last closing
    brace. *)
Lemma match_rest_rfind (s : pystr) :
  match_rest s = if (rfind Ch.RBRACE s =? -1)%Z then None
                 else Some (take (Z.to_nat (rfind Ch.RBRACE s + 1)) s).
Proof.
  induction s as [|c s IH]; [done|].
  simpl match_rest. rewrite IH. simpl rfind.
  destruct (rfind_range Ch.RBRACE s) as [Hj|Hj].
  - rewrite Hj. simpl. by destruct (N.eqb c Ch.RBRACE).
  - destruct (Z.eqb_spec (rfind Ch.RBRACE s) (-1)) as [|_]; [lia|].
    destruct (Z.eqb_spec (rfind Ch.RBRACE s + 1) (-1)) as [|_]; [lia|].
    replace (Z.to_nat (rfind Ch.RBRACE s + 1 + 1))
      with (S (Z.to_nat (rfind Ch.RBRACE s + 1))) by lia.
    done.
Qed.

Lemma re_search_braces_no_rbrace (s : pystr) :
  rfind Ch.RBRACE s = (-1)%Z -> re_search_braces s = None.
Proof.
  induction s as [|c s IH]; [done|]. simpl.
  destruct (Z.eqb_spec (rfind Ch.RBRACE s) (-1)) as [Hj|Hj].
  - intros _. rewrite match_rest_rfind, Hj. simpl.
    rewrite (IH Hj). by destruct (N.eqb c Ch.LBRACE).
  - destruct (rfind_range Ch.RBRACE s); lia.
Qed.

(** The search of the pattern finds the substring from the first opening
    brace to the last closing brace. *)
Lemma re_search_braces_spec (text : pystr) :
  re_search_braces text = first_to_last_brace text.
Proof.
  induction text as [|c s IH]; [done|].
  unfold first_to_last_brace in *. simpl.
  destruct (rfind_range Ch.RBRACE s) as [Hj|Hj].
  - (* no closing brace after the first character *)
    rewrite match_rest_rfind, re_search_braces_no_rbrace, Hj by done. simpl.
    destruct (N.eqb c Ch.LBRACE) eqn:Hc; simpl.
    + by destruct (N.eqb c Ch.RBRACE).
    + destruct (find_range Ch.LBRACE s) as [Hi|Hi].
      * rewrite Hi. done.
      * destruct (Z.eqb_spec (find Ch.LBRACE s) (-1)); [lia|].
        destruct (N.eqb c Ch.RBRACE);
          destruct (Z.leb_spec 0 (find Ch.LBRACE s + 1));
          destruct (Z.ltb_spec (find Ch.LBRACE s + 1) 0);
          destruct (Z.ltb_spec (find Ch.LBRACE s + 1) (-1)); simpl; try done; lia.
  - destruct (Z.eqb_spec (rfind Ch.RBRACE s) (-1)) as [|_]; [lia|].
    destruct (N.eqb c Ch.LBRACE) eqn:Hc.
    + rewrite match_rest_rfind.
      destruct (Z.eqb_spec (rfind Ch.RBRACE s) (-1)) as [|_]; [lia|].
      destruct (Z.ltb_spec 0 (rfind Ch.RBRACE s + 1)); [|lia]. simpl.
      unfold slice. simpl.
      replace (Z.to_nat (rfind Ch.RBRACE s + 1 + 1 - 0))
        with (S (Z.to_nat (rfind Ch.RBRACE s + 1))) by lia.
      done.
    + rewrite IH.
      destruct (find_range Ch.LBRACE s) as [Hi|Hi].
      * rewrite Hi. done.
      * destruct (Z.eqb_spec (find Ch.LBRACE s) (-1)); [lia|].
        destruct (Z.leb_spec 0 (find Ch.LBRACE s)); [|lia].
        destruct (Z.leb_spec 0 (find Ch.LBRACE s + 1)); [|lia].
        simpl.
        destruct (Z.ltb_spec (find Ch.LBRACE s) (rfind Ch.RBRACE s));
          destruct (Z.ltb_spec (find Ch.LBRACE s + 1) (rfind Ch.RBRACE s + 1));
          try lia; [|done].
        unfold slice.
        replace (Z.to_nat (find Ch.LBRACE s + 1)) with (S (Z.to_nat (find Ch.LBRACE s))) by lia.
        simpl. do 2 f_equal. lia.
Qed.

Lemma brace_depth_snoc (s : pystr) (c : N) :
  brace_depth (s ++ [c])
  = (brace_depth s + (if N.eqb c Ch.LBRACE then 1
                      else if N.eqb c Ch.RBRACE then -1 else 0))%Z.
Proof.
  induction s as [|x s IH]; simpl; [lia|]. rewrite IH. lia.
Qed.

Lemma prefixes_after (seen : pystr) (c : N) (rest : pystr) :
  (app seen) <$> prefixes (c :: rest)
  = (seen ++ [c]) :: ((app (seen ++ [c])) <$> prefixes rest).
Proof.
  simpl. f_equal. rewrite <- list_fmap_compose.
  apply list_fmap_ext. intros _ p _. simpl. by rewrite <- app_assoc.
Qed.

Section Scan.

Variable json_loads : pystr -> option json.

(** Inside the braces the loop stops where the depth first returns to
    zero, and decodes what it has seen up to there. *)
Lemma scan_braces_first_balanced (rest seen : pystr) :
  (0 < brace_depth seen)%Z ->
  scan_braces json_loads (brace_depth seen) seen rest
  = head (filter (fun p => brace_depth p = 0%Z) ((app seen) <$> prefixes rest))
    ≫= json_loads.
Proof.
  revert seen. induction rest as [|ch rest IH]; intros seen Hpos; [done|].
  rewrite prefixes_after, filter_cons.
  pose proof (brace_depth_snoc seen ch) as Hd.
  simpl scan_braces.
  destruct (N.eqb ch Ch.LBRACE) eqn:Hl.
  - rewrite decide_False by lia.
    replace (brace_depth seen + 1)%Z with (brace_depth (seen ++ [ch])) by lia.
    apply IH. lia.
  - destruct (N.eqb ch Ch.RBRACE) eqn:Hr.
    + destruct (Z.eqb_spec (brace_depth seen - 1) 0) as [H0|H0].
      * rewrite decide_True by lia. done.
      * rewrite decide_False by lia.
        replace (brace_depth seen - 1)%Z with (brace_depth (seen ++ [ch])) by lia.
        apply IH. lia.
    + rewrite decide_False by lia.
      replace (brace_depth seen) with (brace_depth (seen ++ [ch])) at 1 by lia.
      apply IH. lia.
Qed.

Lemma slice_from_find (c : N) (s : pystr) :
  find c s <> (-1)%Z -> exists r, slice_from (find c s) s = c :: r.
Proof.
  unfold slice_from. induction s as [|x s IH]; simpl; [done|].
  destruct (N.eqb_spec x c) as [->|Hx]; [intros _; by exists s|].
  destruct (Z.eqb_spec (find c s) (-1)) as [|Hne]; [done|]. intros _.
  destruct (IH Hne) as [r Hr]. exists r.
  destruct (find_range c s); [done|].
  replace (Z.to_nat (find c s + 1)) with (S (Z.to_nat (find c s))) by lia.
  done.
Qed.

(** Lines 144-157 decode the first balanced span and nothing after it. *)
Lemma scan_braces_balanced_decode (text : pystr) :
  (if (find Ch.LBRACE text =? -1)%Z then None
   else scan_braces json_loads 0 [] (slice_from (find Ch.LBRACE text) text))
  = balanced_decode json_loads text.
Proof.
  unfold balanced_decode, first_balanced_span.
  destruct (Z.eqb_spec (find Ch.LBRACE text) (-1)) as [|Hne]; [done|].
  destruct (slice_from_find _ _ Hne) as [r ->].
  change (scan_braces json_loads (brace_depth [Ch.LBRACE]) [Ch.LBRACE] r
          = head (filter (fun p => brace_depth p = 0%Z) (prefixes (Ch.LBRACE :: r)))
            ≫= json_loads).
  rewrite scan_braces_first_balanced by done.
  change (prefixes (Ch.LBRACE :: r)) with ([Ch.LBRACE] :: (cons Ch.LBRACE <$> prefixes r)).
  rewrite filter_cons, decide_False by done.
  done.
Qed.

(** The extractor is the first success among the three strategies. *)
Lemma safe_json_from_text_first_success (t : pystr) :
  safe_json_from_text json_loads (Some t)
  = match first_success (strategies json_loads) (preprocess t) with
    | Some v => Ok v
    | None => Raise (ValueError MSG_NO_JSON)
    end.
Proof.
  unfold safe_json_from_text. simpl first_success.
  unfold direct_decode at 1.
  destruct (json_loads (preprocess t)) as [v|]; [done|].
  rewrite re_search_braces_spec.
  change (match first_to_last_brace (preprocess t) with
          | Some candidate => json_loads candidate
          | None => None
          end) with (greedy_decode json_loads (preprocess t)).
  destruct (greedy_decode json_loads (preprocess t)) as [v|]; [done|].
  rewrite scan_braces_balanced_decode.
  by destruct (balanced_decode json_loads (preprocess t)).
Qed.

End Scan.

(** C1.  On an absent text the extractor raises.  On a text it returns
    the result of the first of the three strategies that decodes the
    preprocessed text: the whole text, the substring from the first
    opening brace to the last closing brace, the first balanced span (and
    no later span).  It raises exactly when the text is absent or all
    three fail, and what it raises is a [ValueError] with one of two fixed
    messages: nothing decoded is carried along. *)
Theorem safe_json_from_text_strategies (json_loads : pystr -> option json)
    (text : option pystr) :
  safe_json_from_text json_loads text
  = match text with
    | None => Raise (ValueError MSG_EMPTY)
    | Some t =>
        match first_success (strategies json_loads) (preprocess t) with
        | Some v => Ok v
        | None => Raise (ValueError MSG_NO_JSON)
        end
    end
  /\ (raises (safe_json_from_text json_loads text) = true <->
        text = None
        \/ exists t, text = Some t
                     /\ direct_decode json_loads (preprocess t) = None
                     /\ greedy_decode json_loads (preprocess t) = None
                     /\ balanced_decode json_loads (preprocess t) = None)
  /\ (forall e, safe_json_from_text json_loads text = Raise e ->
        e = ValueError MSG_EMPTY \/ e = ValueError MSG_NO_JSON).
Proof.
  destruct text as [t|].
  - rewrite safe_json_from_text_first_success. simpl first_success.
    destruct (direct_decode json_loads (preprocess t)) as [v|] eqn:H1;
      [|destruct (greedy_decode json_loads (preprocess t)) as [v|] eqn:H2;
        [|destruct (balanced_decode json_loads (preprocess t)) as [v|] eqn:H3]].
    all: split; [done|]; split; [|intros e [=]; subst; auto].
    all: split; [try done | intros [?|(t' & Ht & ? & ? & ?)]; try done].
    all: try (injection Ht as <-; congruence).
    intros _. right. by exists t.
  - split; [done|]. split; [split; auto|].
    intros e [= <-]. by left.
Qed.

(** ** Blanks and the decoder *)

Lemma isspace_bounds (c : N) :
  isspace c = true -> ((9 <= c <= 32) \/ 133 <= c)%N.
Proof.
  unfold isspace, in_range.
  rewrite !orb_true_iff, !andb_true_iff, !N.eqb_eq, !N.leb_le. lia.
Qed.

(** A blank is none of the characters the decoder looks for. *)
Lemma space_neqb (c k : N) :
  isspace c = true -> isspace k = false -> N.eqb c k = false.
Proof.
  intros Hc Hk. destruct (N.eqb_spec c k) as [->|]; [congruence|done].
Qed.

Lemma space_not_in_range (c lo hi : N) :
  isspace c = true -> (33 <=? lo)%N = true -> (hi <=? 132)%N = true ->
  in_range lo hi c = false.
Proof.
  intros Hc%isspace_bounds Hlo%N.leb_le Hhi%N.leb_le. unfold in_range.
  destruct (N.leb_spec lo c), (N.leb_spec c hi); simpl; try done. lia.
Qed.

Module JsonFacts.
Import Json.

Ltac no_space_test H Hstep :=
  unfold lex_idle, lex_num, lex_str, lex_word, unescape, hex_value, is_digit in Hstep;
  rewrite ?(space_neqb _ _ H), ?(space_not_in_range _ _ _ H) in Hstep by reflexivity;
  cbn [orb andb] in Hstep.

Lemma lex_idle_space (toks : list token) (c : N) (cfg : list token * lex_state) :
  isspace c = true -> lex_idle toks c = Some cfg -> cfg = (toks, LIdle).
Proof.
  intros H Hstep. unfold lex_idle in Hstep.
  destruct (is_ws c); [congruence|].
  no_space_test H Hstep. done.
Qed.

Lemma lex_step_space (cfg cfg1 : list token * lex_state) (c : N) (toks : list token) :
  isspace c = true -> wf_state cfg.2 ->
  lex_step cfg c = Some cfg1 -> lex_finish cfg1 = Some toks ->
  lex_finish cfg = Some toks.
Proof.
  intros H Hwf Hstep Hfin. destruct cfg as [toks0 st]. simpl in *.
  destruct st as [|todo tok|ph lx|acc hi m].
  - by apply lex_idle_space in Hstep as ->.
  - exfalso. destruct todo as [|x todo]; [done|]. apply Forall_cons in Hwf as [Hx _].
    unfold lex_word in Hstep. by rewrite (space_neqb _ _ H Hx) in Hstep.
  - destruct ph; no_space_test H Hstep; try done.
    all: cbn [num_token] in *.
    all: by apply lex_idle_space in Hstep as ->.
  - exfalso. destruct m as [| |k v]; no_space_test H Hstep; try done.
    destruct (c <? 32)%N; [done|]. by injection Hstep as <-.
Qed.

Lemma wf_idle (toks : list token) (c : N) (cfg : list token * lex_state) :
  lex_idle toks c = Some cfg -> wf_state cfg.2.
Proof.
  unfold lex_idle.
  repeat match goal with
         | |- context [if ?b then _ else _] => destruct b
         end; intros [= <-]; simpl; try done.
  all: vm_compute; repeat constructor.
Qed.

Lemma wf_step (cfg cfg1 : list token * lex_state) (c : N) :
  wf_state cfg.2 -> lex_step cfg c = Some cfg1 -> wf_state cfg1.2.
Proof.
  destruct cfg as [toks st]. simpl. intros Hwf Hstep.
  destruct st as [|todo tok|ph lx|acc hi m].
  - by apply wf_idle in Hstep.
  - unfold lex_word in Hstep. destruct todo as [|x todo]; [done|].
    apply Forall_cons in Hwf as [_ Hwf].
    destruct (N.eqb c x); [|done].
    destruct todo; by injection Hstep as <-.
  - unfold lex_num in Hstep.
    destruct ph; cbn [num_token] in Hstep;
      repeat match type of Hstep with
             | context [if ?b then _ else _] => destruct b
             end;
      try (by apply wf_idle in Hstep); try done;
      injection Hstep as <-; simpl; try done.
    vm_compute; repeat constructor.
  - unfold lex_str in Hstep.
    destruct m;
      repeat match type of Hstep with
             | context [if ?b then _ else _] => destruct b
             | context [match ?o with Some _ => _ | None => _ end] => destruct o
             end;
      try done; by injection Hstep as <-.
Qed.

Lemma wf_run (s : pystr) (cfg cfg1 : list token * lex_state) :
  wf_state cfg.2 -> lex_run cfg s = Some cfg1 -> wf_state cfg1.2.
Proof.
  revert cfg. induction s as [|c s IH]; intros cfg Hwf; simpl.
  - by intros [= <-].
  - destruct (lex_step cfg c) as [cfg'|] eqn:Hstep; [|done].
    apply IH. by apply (wf_step cfg _ c).
Qed.

Lemma lex_run_app (a b : pystr) (cfg : list token * lex_state) :
  lex_run cfg (a ++ b) = lex_run cfg a ≫= fun cfg' => lex_run cfg' b.
Proof.
  revert cfg. induction a as [|c a IH]; intros cfg; simpl; [done|].
  destruct (lex_step cfg c); [apply IH|done].
Qed.

(** Blanks before the value leave the automaton where it started. *)
Lemma lex_run_leading (l s : pystr) (toks : list token) :
  Forall (fun c => isspace c = true) l ->
  is_Some (lex_run (toks, LIdle) (l ++ s)) ->
  lex_run (toks, LIdle) (l ++ s) = lex_run (toks, LIdle) s.
Proof.
  induction 1 as [|c l Hc _ IH]; [done|]. simpl.
  destruct (lex_idle toks c) as [cfg|] eqn:Hstep; [|by intros [? ?]].
  apply (lex_idle_space _ _ _ Hc) in Hstep as ->. apply IH.
Qed.

(** Blanks after the value add no token. *)
Lemma lex_run_trailing (r : pystr) (cfg cfg1 : list token * lex_state)
    (toks : list token) :
  Forall (fun c => isspace c = true) r -> wf_state cfg.2 ->
  lex_run cfg r = Some cfg1 -> lex_finish cfg1 = Some toks ->
  lex_finish cfg = Some toks.
Proof.
  intros Hr. revert cfg. induction Hr as [|c r Hc _ IH]; intros cfg Hwf; simpl.
  - by intros [= <-].
  - destruct (lex_step cfg c) as [cfg'|] eqn:Hstep; [|done].
    intros Hrun Hfin. apply (lex_step_space cfg cfg' c toks Hc Hwf Hstep).
    apply IH; [by apply (wf_step cfg _ c)|done..].
Qed.

End JsonFacts.

Lemma lstrip_split (s : pystr) :
  exists l, s = l ++ lstrip s /\ Forall (fun c => isspace c = true) l.
Proof.
  induction s as [|c s (l & Hl & Hsp)]; [by exists []|]. simpl.
  destruct (isspace c) eqn:Hc.
  - exists (c :: l). split; [by rewrite Hl at 1|by constructor].
  - by exists [].
Qed.

Lemma rstrip_split (s : pystr) :
  exists r, s = rstrip s ++ r /\ Forall (fun c => isspace c = true) r.
Proof.
  destruct (lstrip_split (rev s)) as (l & Hl & Hsp).
  exists (rev l). split.
  - unfold rstrip. rewrite <- rev_app_distr, <- Hl. by rewrite rev_involutive.
  - by apply List.Forall_rev.
Qed.

(** A text is its stripped text between two runs of blanks. *)
Lemma strip_split (s : pystr) :
  exists l r, s = l ++ strip s ++ r
              /\ Forall (fun c => isspace c = true) l
              /\ Forall (fun c => isspace c = true) r.
Proof.
  destruct (lstrip_split s) as (l & Hl & Hsl).
  destruct (rstrip_split (lstrip s)) as (r & Hr & Hsr).
  exists l, r. unfold strip. by rewrite <- Hr.
Qed.

(** A text that decodes decodes to the same value once stripped. *)
Lemma lex_strip (s : pystr) (toks : list Json.token) :
  Json.lex s = Some toks -> Json.lex (strip s) = Some toks.
Proof.
  destruct (strip_split s) as (l & r & Hs & Hl & Hr).
  unfold Json.lex. rewrite Hs at 1.
  destruct (Json.lex_run _ (l ++ _)) as [cfg|] eqn:Hrun; [|done].
  rewrite JsonFacts.lex_run_leading in Hrun by (by rewrite ?Hrun).
  rewrite JsonFacts.lex_run_app in Hrun.
  destruct (Json.lex_run _ (strip s)) as [cfg_m|] eqn:Hm; [|done].
  simpl in Hrun. intros Hfin.
  apply (JsonFacts.lex_run_trailing r cfg_m cfg toks Hr); [|done..].
  by apply (JsonFacts.wf_run (strip s) ([], Json.LIdle)).
Qed.

Lemma loads_strip (s : pystr) (v : json) :
  Json.loads s = Some v -> Json.loads (strip s) = Some v.
Proof.
  unfold Json.loads. destruct (Json.lex s) as [toks|] eqn:Hlex; [|done].
  by rewrite (lex_strip _ _ Hlex).
Qed.

(** ** Direct decoding *)

Lemma replace_absent (old new : N) (s : pystr) :
  Forall (fun c => N.eqb c old = false) s -> replace old new s = s.
Proof.
  unfold replace. induction 1 as [|c s Hc _ IH]; [done|].
  rewrite fmap_cons, IH. by rewrite Hc.
Qed.

Lemma replace_no_smart_quote (s : pystr) :
  Forall (fun c => smart_quote c = false) s ->
  replace Ch.RSQUO Ch.APOS (replace Ch.RDQUO Ch.DQUOTE (replace Ch.LDQUO Ch.DQUOTE s)) = s.
Proof.
  intros H.
  rewrite (replace_absent Ch.LDQUO), (replace_absent Ch.RDQUO),
    (replace_absent Ch.RSQUO); [done|..];
    (eapply Forall_impl; [exact H|]); intros c Hc; unfold smart_quote in Hc;
    apply orb_false_iff in Hc as [Hc ?]; apply orb_false_iff in Hc as [? ?]; done.
Qed.

Lemma loads_fence (r : pystr) : Json.loads (FENCE ++ r) = None.
Proof. reflexivity. Qed.

Lemma _strip_code_fences_plain (t : pystr) :
  startswith FENCE (strip t) = false -> _strip_code_fences t = strip t.
Proof. unfold _strip_code_fences. by intros ->. Qed.

(** A text that decodes is, stripped, what the extractor decodes first. *)
Lemma preprocess_decodable (t : pystr) (v : json) :
  Json.loads t = Some v -> Forall (fun c => smart_quote c = false) t ->
  preprocess t = strip t.
Proof.
  intros Hv Hq. apply loads_strip in Hv.
  unfold preprocess. rewrite _strip_code_fences_plain.
  - apply replace_no_smart_quote.
    destruct (strip_split t) as (l & r & Ht & _ & _). rewrite Ht in Hq.
    by apply Forall_app in Hq as [_ [? _]%Forall_app].
  - destruct (startswith FENCE (strip t)) eqn:E; [|done].
    apply startswith_inv in E as [r Hr]. by rewrite Hr, loads_fence in Hv.
Qed.

(** C2, amended.  On a text that decodes and holds none of the three
    quotation marks the extractor replaces, the direct strategy, and so
    the extractor, returns the value the text denotes. *)
Theorem direct_decode_exact (t : pystr) (v : json) :
  Json.loads t = Some v ->
  Forall (fun c => smart_quote c = false) t ->
  direct_decode Json.loads (preprocess t) = Some v
  /\ safe_json_from_text Json.loads (Some t) = Ok v.
Proof.
  intros Hv Hq.
  assert (Hd : Json.loads (preprocess t) = Some v).
  { rewrite (preprocess_decodable t v Hv Hq). by apply loads_strip. }
  split; [done|]. unfold safe_json_from_text. by rewrite Hd.
Qed.

(** C2, as stated, fails: the text of a JSON string that holds a left
    double quotation mark decodes, but the extractor first turns the mark
    into the ASCII quote, and then no strategy decodes the text. *)
Lemma direct_decode_smart_quote :
  Json.loads quoted_ldquo = Some (JStr [Ch.LDQUO])
  /\ direct_decode Json.loads (preprocess quoted_ldquo) = None
  /\ safe_json_from_text Json.loads (Some quoted_ldquo) = Raise (ValueError MSG_NO_JSON).
Proof. repeat split; vm_compute; reflexivity. Qed.

Lemma direct_decode_exact_witness :
  safe_json_from_text Json.loads (Some (lit " [1, 2] ")) = Ok (JList [JInt 1; JInt 2]).
Proof.
  refine (proj2 (direct_decode_exact (lit " [1, 2] ") (JList [JInt 1; JInt 2]) _ _)).
  - vm_compute. reflexivity.
  - vm_compute. repeat constructor.
Defined.

(** ** Fenced text *)

Lemma splitlines_from_line (p cur rest : pystr) :
  Forall (fun c => is_linebreak c = false) p ->
  splitlines_from cur false (p ++ Ch.LF :: rest)
  = (cur ++ p) :: splitlines_from [] false rest.
Proof.
  intros Hp. revert cur. induction Hp as [|c p Hc _ IH]; intros cur.
  - by rewrite app_nil_r.
  - simpl. rewrite Hc. simpl.
    rewrite IH. by rewrite <- app_assoc.
Qed.

Lemma splitlines_from_fenced_tail (t cur : pystr) :
  Forall (fun c => lf_only c = true) t ->
  splitlines_from cur false (t ++ Ch.LF :: FENCE) = split_lf cur t ++ [FENCE].
Proof.
  intros Ht. revert cur. induction Ht as [|c t Hc _ IH]; intros cur; [done|].
  simpl. unfold lf_only in Hc.
  destruct (N.eqb_spec c Ch.LF) as [->|Hne].
  - simpl. by rewrite IH.
  - rewrite orb_false_r in Hc. apply negb_true_iff in Hc. rewrite Hc. apply IH.
Qed.

Lemma split_lf_nonempty (t cur : pystr) : split_lf cur t <> [].
Proof.
  revert cur. induction t as [|c t IH]; intros cur; simpl; [done|].
  destruct (N.eqb c Ch.LF); [done|apply IH].
Qed.

Lemma join_split_lf (t cur : pystr) : join [Ch.LF] (split_lf cur t) = cur ++ t.
Proof.
  revert cur. induction t as [|c t IH]; intros cur; cbn [split_lf].
  - simpl. by rewrite app_nil_r.
  - destruct (N.eqb_spec c Ch.LF) as [->|Hne].
    + pose proof (split_lf_nonempty t []) as Hne.
      specialize (IH []). destruct (split_lf [] t) as [|x xs]; [done|].
      change (join [Ch.LF] (cur :: x :: xs))
        with (cur ++ [Ch.LF] ++ join [Ch.LF] (x :: xs)).
      by rewrite IH.
    + rewrite IH. by rewrite <- app_assoc.
Qed.

Lemma strip_trimmed (a z : N) (m : pystr) :
  isspace a = false -> isspace z = false ->
  strip (a :: m ++ [z]) = a :: m ++ [z].
Proof.
  intros Ha Hz.
  assert (Hrev : rev (a :: m ++ [z]) = z :: rev (a :: m)).
  { change (a :: m ++ [z]) with ((a :: m) ++ [z]). by rewrite rev_app_distr. }
  unfold strip, rstrip. cbn [lstrip]. rewrite Ha, Hrev. cbn [lstrip]. rewrite Hz.
  by rewrite <- Hrev, rev_involutive.
Qed.

Lemma fenced_shape (t : pystr) :
  fenced t = Ch.BACKTICK :: (lit "``json" ++ Ch.LF :: t ++ Ch.LF :: lit "``")
             ++ [Ch.BACKTICK].
Proof.
  rewrite <- app_assoc. cbn [app]. rewrite <- app_assoc. reflexivity.
Qed.

(** Stripping the fences of a fenced text gives back the text, stripped,
    when its only line boundaries are line feeds. *)
Lemma _strip_code_fences_fenced (t : pystr) :
  Forall (fun c => lf_only c = true) t ->
  _strip_code_fences (fenced t) = strip t.
Proof.
  intros Ht. unfold _strip_code_fences.
  rewrite fenced_shape, strip_trimmed, <- fenced_shape by done.
  change (startswith FENCE (fenced t)) with true. cbv iota.
  unfold splitlines.
  change (fenced t) with (lit "```json" ++ Ch.LF :: (t ++ Ch.LF :: FENCE)).
  rewrite (splitlines_from_line (lit "```json") [] (t ++ Ch.LF :: FENCE))
    by (vm_compute; repeat constructor).
  change (startswith FENCE ([] ++ lit "```json")) with true. cbv iota.
  rewrite splitlines_from_fenced_tail by done.
  rewrite last_snoc.
  change (startswith FENCE (strip FENCE)) with true. cbv iota.
  rewrite removelast_last, join_split_lf. done.
Qed.

(** C3, amended.  When the inner text has no line boundary but line
    feeds and does not itself begin with a fence marker once stripped,
    the extractor gives on the fenced text what it gives on the inner
    text, whatever the decoder. *)
Theorem fenced_same_as_unfenced (json_loads : pystr -> option json) (t : pystr) :
  Forall (fun c => lf_only c = true) t ->
  startswith FENCE (strip t) = false ->
  safe_json_from_text json_loads (Some (fenced t))
  = safe_json_from_text json_loads (Some t).
Proof.
  intros Ht Hf.
  assert (Hp : preprocess (fenced t) = preprocess t).
  { unfold preprocess.
    by rewrite _strip_code_fences_fenced, _strip_code_fences_plain. }
  unfold safe_json_from_text. by rewrite Hp.
Qed.

(** C3, as stated, fails.  Removing the fences splits the text at every
    line boundary and joins the lines with line feeds: a line separator
    inside a string comes back as a raw line feed, which no strategy
    decodes.  And an inner text that begins with a fence marker loses its
    first line when it stands alone, not when it is fenced. *)
Lemma fenced_differs_from_unfenced :
  (safe_json_from_text Json.loads (Some object_with_line_separator)
   = Ok (JObject {[ lit "a" := JStr [120; Ch.LINE_SEP; 121]%N ]})
   /\ safe_json_from_text Json.loads (Some (fenced object_with_line_separator))
      = Raise (ValueError MSG_NO_JSON))
  /\ (safe_json_from_text Json.loads (Some fence_marker_first) = Ok (JInt 5)
      /\ safe_json_from_text Json.loads (Some (fenced fence_marker_first))
         = Ok (JObject ∅)).
Proof. repeat split; vm_compute; reflexivity. Qed.

(** A fenced block written on one line, as in the docstring of
    [_strip_code_fences], is removed whole, and nothing is extracted. *)
Remark one_line_fence_stripped_whole :
  _strip_code_fences (lit "```json {} ```") = []
  /\ safe_json_from_text Json.loads (Some (lit "```json {} ```"))
     = Raise (ValueError MSG_NO_JSON).
Proof. split; vm_compute; reflexivity. Qed.

Lemma fenced_same_as_unfenced_witness :
  safe_json_from_text Json.loads (Some (fenced (lit "{}")))
  = safe_json_from_text Json.loads (Some (lit "{}")).
Proof.
  apply (fenced_same_as_unfenced Json.loads (lit "{}")).
  - vm_compute. repeat constructor.
  - vm_compute. reflexivity.
Defined.

(** * Further properties *)

(** ** Stripping *)

Lemma lstrip_blanks (l s : pystr) :
  Forall (fun c => isspace c = true) l -> lstrip (l ++ s) = lstrip s.
Proof. induction 1 as [|c l Hc _ IH]; [done|]. simpl. by rewrite Hc. Qed.

Lemma rstrip_blanks (s r : pystr) :
  Forall (fun c => isspace c = true) r -> rstrip (s ++ r) = rstrip s.
Proof.
  intros Hr. unfold rstrip. rewrite rev_app_distr, lstrip_blanks; [done|].
  by apply List.Forall_rev.
Qed.

Lemma lstrip_all_blank (r : pystr) :
  Forall (fun c => isspace c = true) r -> lstrip r = [].
Proof. induction 1 as [|c l Hc _ IH]; [done|]. simpl. by rewrite Hc. Qed.

Lemma strip_app_blanks (s r : pystr) :
  Forall (fun c => isspace c = true) r -> strip (s ++ r) = strip s.
Proof.
  intros Hr. unfold strip. induction s as [|c s IH]; simpl.
  - by rewrite (lstrip_all_blank r Hr).
  - destruct (isspace c); [done|].
    change (c :: s ++ r) with ((c :: s) ++ r). by apply rstrip_blanks.
Qed.

(** [strip] does not see the blanks around a text. *)
Lemma strip_blanks_around (l s r : pystr) :
  Forall (fun c => isspace c = true) l ->
  Forall (fun c => isspace c = true) r ->
  strip (l ++ s ++ r) = strip s.
Proof.
  intros Hl Hr. rewrite <- (strip_app_blanks s r Hr).
  unfold strip. by rewrite lstrip_blanks.
Qed.

Lemma strip_idempotent (s : pystr) : strip (strip s) = strip s.
Proof.
  destruct (strip_split s) as (l & r & Hs & Hl & Hr).
  rewrite Hs at 2. by rewrite strip_blanks_around.
Qed.

(** ** The extractor *)

(** X1.  Blanks before and after the text do not change what the
    extractor returns. *)
Theorem safe_json_from_text_blanks_around (json_loads : pystr -> option json)
    (l t r : pystr) :
  Forall (fun c => isspace c = true) l ->
  Forall (fun c => isspace c = true) r ->
  safe_json_from_text json_loads (Some (l ++ t ++ r))
  = safe_json_from_text json_loads (Some t).
Proof.
  intros Hl Hr.
  assert (Hp : preprocess (l ++ t ++ r) = preprocess t).
  { unfold preprocess, _strip_code_fences. by rewrite strip_blanks_around. }
  unfold safe_json_from_text. by rewrite Hp.
Qed.

Lemma safe_json_from_text_blanks_around_witness :
  safe_json_from_text Json.loads (Some ([Ch.LF; Ch.SPACE] ++ lit "{}" ++ [Ch.TAB; 160%N]))
  = safe_json_from_text Json.loads (Some (lit "{}")).
Proof.
  apply (safe_json_from_text_blanks_around Json.loads [Ch.LF; Ch.SPACE] (lit "{}")
           [Ch.TAB; 160%N]); repeat constructor.
Defined.

Lemma prefixes_prefix (s p : pystr) : p ∈ prefixes s -> exists b, s = p ++ b.
Proof.
  revert p. induction s as [|c s IH]; intros p; simpl; [by intros ?%elem_of_nil|].
  intros [->|Hin]%elem_of_cons; [by exists s|].
  apply list_elem_of_fmap in Hin as (q & -> & Hq).
  destruct (IH q Hq) as [b ->]. by exists b.
Qed.

Lemma first_to_last_brace_substring (text c : pystr) :
  first_to_last_brace text = Some c -> exists a b, text = a ++ c ++ b.
Proof.
  unfold first_to_last_brace, slice.
  destruct (_ && _); [|done]. intros [= <-].
  eexists (take _ text), (drop _ (drop _ text)).
  by rewrite take_drop, take_drop.
Qed.

Lemma first_balanced_span_substring (text c : pystr) :
  first_balanced_span text = Some c -> exists a b, text = a ++ c ++ b.
Proof.
  unfold first_balanced_span, slice_from.
  destruct (_ =? _)%Z; [done|]. intros Hh.
  apply head_Some_elem_of, list_elem_of_filter in Hh as [_ Hin].
  apply prefixes_prefix in Hin as [b Hb].
  exists (take (Z.to_nat (find Ch.LBRACE text)) text), b.
  by rewrite <- Hb, take_drop.
Qed.

(** X2.  Whatever the extractor returns is what the decoder gives on
    one contiguous part of the preprocessed text: the extractor puts
    nothing together and repairs nothing. *)
Theorem safe_json_from_text_decodes_substring (json_loads : pystr -> option json)
    (t : pystr) (v : json) :
  safe_json_from_text json_loads (Some t) = Ok v ->
  exists a c b, preprocess t = a ++ c ++ b /\ json_loads c = Some v.
Proof.
  rewrite safe_json_from_text_first_success. simpl first_success.
  unfold direct_decode, greedy_decode, balanced_decode.
  destruct (json_loads (preprocess t)) as [v1|] eqn:H1.
  { intros [= <-]. exists [], (preprocess t), []. by rewrite app_nil_r. }
  destruct (first_to_last_brace (preprocess t)) as [c|] eqn:Hc; simpl.
  - destruct (json_loads c) as [v2|] eqn:H2.
    + intros [= <-]. destruct (first_to_last_brace_substring _ _ Hc) as (a & b & Hab).
      by exists a, c, b.
    + destruct (first_balanced_span (preprocess t)) as [c'|] eqn:Hc'; simpl; [|done].
      destruct (json_loads c') as [v3|] eqn:H3; [|done]. intros [= <-].
      destruct (first_balanced_span_substring _ _ Hc') as (a & b & Hab).
      by exists a, c', b.
  - destruct (first_balanced_span (preprocess t)) as [c'|] eqn:Hc'; simpl; [|done].
    destruct (json_loads c') as [v3|] eqn:H3; [|done]. intros [= <-].
    destruct (first_balanced_span_substring _ _ Hc') as (a & b & Hab).
    by exists a, c', b.
Qed.

Lemma safe_json_from_text_decodes_substring_witness :
  exists a c b, preprocess (lit "Sure: {} done") = a ++ c ++ b
                /\ Json.loads c = Some (JObject ∅).
Proof.
  apply (safe_json_from_text_decodes_substring Json.loads (lit "Sure: {} done")).
  vm_compute. reflexivity.
Defined.

Lemma find_first (c : N) (pre rest : pystr) :
  Forall (fun x => x <> c) pre ->
  find c (pre ++ c :: rest) = Z.of_nat (length pre).
Proof.
  induction 1 as [|x pre Hx _ IH]; simpl.
  - by rewrite N.eqb_refl.
  - destruct (N.eqb_spec x c) as [|_]; [done|]. rewrite IH.
    destruct (Z.eqb_spec (Z.of_nat (length pre)) (-1)); lia.
Qed.

Lemma rfind_absent (c : N) (post : pystr) :
  Forall (fun x => x <> c) post -> rfind c post = (-1)%Z.
Proof.
  induction 1 as [|x post Hx _ IH]; simpl; [done|]. rewrite IH. simpl.
  by destruct (N.eqb_spec x c).
Qed.

Lemma rfind_last (c : N) (s post : pystr) :
  Forall (fun x => x <> c) post ->
  rfind c (s ++ c :: post) = Z.of_nat (length s).
Proof.
  intros Hpost. induction s as [|x s IH]; simpl.
  - by rewrite (rfind_absent c post Hpost), N.eqb_refl.
  - rewrite IH. destruct (Z.eqb_spec (Z.of_nat (length s)) (-1)); lia.
Qed.

(** Between prose without an opening brace and prose without a closing
    brace, the greedy search finds the braces and what they enclose. *)
Lemma first_to_last_brace_embedded (pre m post : pystr) :
  Forall (fun x => x <> Ch.LBRACE) pre ->
  Forall (fun x => x <> Ch.RBRACE) post ->
  first_to_last_brace (pre ++ Ch.LBRACE :: m ++ Ch.RBRACE :: post)
  = Some (Ch.LBRACE :: m ++ [Ch.RBRACE]).
Proof.
  intros Hpre Hpost. unfold first_to_last_brace.
  rewrite find_first by done.
  replace (pre ++ Ch.LBRACE :: m ++ Ch.RBRACE :: post)
    with ((pre ++ Ch.LBRACE :: m) ++ Ch.RBRACE :: post)
    by (by rewrite <- app_assoc).
  rewrite rfind_last by done. rewrite length_app. simpl length.
  destruct (Z.leb_spec 0 (Z.of_nat (length pre))); [|lia].
  destruct (Z.ltb_spec (Z.of_nat (length pre))
              (Z.of_nat (length pre + S (length m)))); [|lia].
  simpl. f_equal. unfold slice.
  rewrite Nat2Z.id, <- app_assoc, drop_app_length.
  replace (Z.to_nat (Z.of_nat (length pre + S (length m)) + 1 - Z.of_nat (length pre)))
    with (length (Ch.LBRACE :: m ++ [Ch.RBRACE]))
    by (simpl; rewrite length_app; simpl; lia).
  replace ((Ch.LBRACE :: m) ++ Ch.RBRACE :: post)
    with ((Ch.LBRACE :: m ++ [Ch.RBRACE]) ++ post)
    by (simpl; by rewrite <- app_assoc).
  by rewrite take_app_length.
Qed.

(** X3.  An object that stands in prose is recovered: when the
    preprocessed text is an object between text without an opening brace
    and text without a closing brace, the whole does not decode and the
    object does, the extractor returns the object. *)
Theorem safe_json_from_text_embedded (json_loads : pystr -> option json)
    (t pre m post : pystr) (v : json) :
  preprocess t = pre ++ Ch.LBRACE :: m ++ Ch.RBRACE :: post ->
  Forall (fun x => x <> Ch.LBRACE) pre ->
  Forall (fun x => x <> Ch.RBRACE) post ->
  json_loads (preprocess t) = None ->
  json_loads (Ch.LBRACE :: m ++ [Ch.RBRACE]) = Some v ->
  safe_json_from_text json_loads (Some t) = Ok v.
Proof.
  intros Ht Hpre Hpost Hwhole Hobj.
  rewrite safe_json_from_text_first_success. simpl first_success.
  unfold direct_decode, greedy_decode. rewrite Hwhole, Ht.
  rewrite first_to_last_brace_embedded by done. simpl. by rewrite Hobj.
Qed.

Lemma safe_json_from_text_embedded_witness :
  safe_json_from_text Json.loads (Some (lit "Sure: {} done")) = Ok (JObject ∅).
Proof.
  apply (safe_json_from_text_embedded Json.loads (lit "Sure: {} done")
           (lit "Sure: ") [] (lit " done")).
  - vm_compute. reflexivity.
  - vm_compute. repeat constructor; discriminate.
  - vm_compute. repeat constructor; discriminate.
  - vm_compute. reflexivity.
  - vm_compute. reflexivity.
Defined.

Lemma splitlines_from_one_line (p cur : pystr) :
  Forall (fun c => is_linebreak c = false) p ->
  splitlines_from cur false p = match cur ++ p with [] => [] | _ => [cur ++ p] end.
Proof.
  intros Hp. revert cur. induction Hp as [|c p Hc _ IH]; intros cur.
  - simpl. rewrite app_nil_r. by destruct cur.
  - simpl. rewrite Hc, IH, <- app_assoc. done.
Qed.

(** X4.  A text on one line that begins with a fence marker, such as a
    fenced block written on one line, is removed whole: nothing is left
    to extract. *)
Theorem _strip_code_fences_one_line (t : pystr) :
  Forall (fun c => is_linebreak c = false) t ->
  startswith FENCE (strip t) = true ->
  _strip_code_fences t = []
  /\ safe_json_from_text Json.loads (Some t) = Raise (ValueError MSG_NO_JSON).
Proof.
  intros Ht Hf.
  assert (Hs : _strip_code_fences t = []).
  { unfold _strip_code_fences. rewrite Hf. unfold splitlines.
    rewrite splitlines_from_one_line.
    - simpl app. destruct (strip t) as [|c s] eqn:E; [done|]. by rewrite Hf.
    - destruct (strip_split t) as (l & r & Hsplit & _ & _). rewrite Hsplit in Ht.
      by apply Forall_app in Ht as [_ [? _]%Forall_app]. }
  split; [done|]. unfold safe_json_from_text, preprocess. by rewrite Hs.
Qed.

Lemma _strip_code_fences_one_line_witness :
  _strip_code_fences (lit "```json {} ```") = []
  /\ safe_json_from_text Json.loads (Some (lit "```json {} ```"))
     = Raise (ValueError MSG_NO_JSON).
Proof.
  apply (_strip_code_fences_one_line (lit "```json {} ```")).
  - vm_compute. repeat constructor.
  - vm_compute. reflexivity.
Defined.

(** ** Quotation marks *)

Section Neutral.

(** A replacement of characters that turns no character into a blank, a
    line boundary or a backtick, nor any of these into something else. *)
Variable f : N -> N.
Hypothesis f_space : forall c, isspace (f c) = isspace c.
Hypothesis f_break : forall c, is_linebreak (f c) = is_linebreak c.
Hypothesis f_tick : forall c, N.eqb Ch.BACKTICK (f c) = N.eqb Ch.BACKTICK c.
Hypothesis f_lf : forall c, N.eqb (f c) Ch.LF = N.eqb c Ch.LF.
Hypothesis f_cr : forall c, N.eqb (f c) Ch.CR = N.eqb c Ch.CR.

Lemma lstrip_fmap (s : pystr) : lstrip (f <$> s) = f <$> lstrip s.
Proof using f_space.
  induction s as [|c s IH]; [done|]. simpl. rewrite f_space.
  by destruct (isspace c).
Qed.

Lemma rev_fmap (s : pystr) : rev (f <$> s) = f <$> rev s.
Proof using Type.
  induction s as [|c s IH]; [done|].
  rewrite fmap_cons. cbn [rev]. by rewrite IH, fmap_app.
Qed.

Lemma strip_fmap (s : pystr) : strip (f <$> s) = f <$> strip s.
Proof using f_space.
  unfold strip, rstrip. by rewrite lstrip_fmap, rev_fmap, lstrip_fmap, rev_fmap.
Qed.

Lemma startswith_fence_fmap (s : pystr) :
  startswith FENCE (f <$> s) = startswith FENCE s.
Proof using f_tick.
  change FENCE with [Ch.BACKTICK; Ch.BACKTICK; Ch.BACKTICK].
  destruct s as [|a [|b [|c s]]]; rewrite ?fmap_cons; cbn [startswith];
    by rewrite ?f_tick.
Qed.

Lemma splitlines_from_fmap (s cur : pystr) (after_cr : bool) :
  splitlines_from (f <$> cur) after_cr (f <$> s)
  = fmap (M := list) f <$> splitlines_from cur after_cr s.
Proof using f_break f_lf f_cr.
  revert cur after_cr. induction s as [|c s IH]; intros cur after_cr.
  - simpl. by destruct cur.
  - simpl. rewrite f_lf, f_break, f_cr.
    destruct (after_cr && N.eqb c Ch.LF); [apply IH|].
    destruct (is_linebreak c).
    + rewrite fmap_cons. f_equal. apply (IH []).
    + rewrite <- IH. by rewrite fmap_app.
Qed.

Lemma join_fmap (ls : list pystr) :
  join [Ch.LF] (fmap (M := list) f <$> ls) = f <$> join [Ch.LF] ls.
Proof using f_lf.
  assert (Hlf : f Ch.LF = Ch.LF).
  { apply N.eqb_eq. rewrite f_lf. apply N.eqb_refl. }
  induction ls as [|x [|y ls] IH]; [done..|].
  change (join [Ch.LF] (fmap (M := list) f <$> x :: y :: ls))
    with ((f <$> x) ++ [Ch.LF] ++ join [Ch.LF] (fmap (M := list) f <$> y :: ls)).
  change (join [Ch.LF] (x :: y :: ls)) with (x ++ [Ch.LF] ++ join [Ch.LF] (y :: ls)).
  rewrite IH, !fmap_app. simpl. by rewrite Hlf.
Qed.

Lemma removelast_fmap {A B} (g : A -> B) (l : list A) :
  removelast (g <$> l) = g <$> removelast l.
Proof using Type.
  induction l as [|x [|y l] IH]; [done..|].
  change (removelast (g <$> x :: y :: l)) with (g x :: removelast (g <$> y :: l)).
  by rewrite IH.
Qed.

(** Such a replacement may be done before the fences are removed or
    after. *)
Lemma _strip_code_fences_fmap (t : pystr) :
  _strip_code_fences (f <$> t) = f <$> _strip_code_fences t.
Proof using All.
  unfold _strip_code_fences.
  rewrite strip_fmap, startswith_fence_fmap.
  destruct (startswith FENCE (strip t)); [|done].
  unfold splitlines.
  change (splitlines_from [] false (f <$> strip t))
    with (splitlines_from (f <$> []) false (f <$> strip t)).
  rewrite (splitlines_from_fmap (strip t) [] false).
  set (lines := splitlines_from [] false (strip t)).
  assert (Hfirst : match fmap (M := list) f <$> lines with
                   | first :: rest => if startswith FENCE first then rest
                                      else fmap (M := list) f <$> lines
                   | [] => fmap (M := list) f <$> lines
                   end
                   = fmap (M := list) f <$> match lines with
                                | first :: rest => if startswith FENCE first
                                                   then rest else lines
                                | [] => lines
                                end).
  { destruct lines as [|first rest]; [done|]. rewrite fmap_cons.
    rewrite startswith_fence_fmap. by destruct (startswith FENCE first). }
  rewrite Hfirst. clear Hfirst.
  set (lines' := match lines with
                 | first :: rest => if startswith FENCE first then rest else lines
                 | [] => lines
                 end).
  rewrite fmap_last.
  destruct (last lines') as [final|]; cbn [fmap option_fmap option_map].
  - rewrite strip_fmap, startswith_fence_fmap.
    destruct (startswith FENCE (strip final)).
    + by rewrite removelast_fmap, join_fmap, strip_fmap.
    + by rewrite join_fmap, strip_fmap.
  - by rewrite join_fmap, strip_fmap.
Qed.

End Neutral.

Lemma replace_ascii_quote (s : pystr) :
  replace Ch.RSQUO Ch.APOS (replace Ch.RDQUO Ch.DQUOTE (replace Ch.LDQUO Ch.DQUOTE s))
  = ascii_quote <$> s.
Proof.
  unfold replace. rewrite <- !list_fmap_compose.
  apply list_fmap_ext. intros _ c _. unfold ascii_quote. simpl.
  destruct (N.eqb_spec c Ch.LDQUO) as [->|]; [done|].
  destruct (N.eqb_spec c Ch.RDQUO) as [->|]; done.
Qed.

Lemma ascii_quote_idempotent (c : N) : ascii_quote (ascii_quote c) = ascii_quote c.
Proof.
  unfold ascii_quote.
  destruct (N.eqb_spec c Ch.LDQUO) as [->|]; [done|].
  destruct (N.eqb_spec c Ch.RDQUO) as [->|]; [done|].
  destruct (N.eqb_spec c Ch.RSQUO) as [->|]; [done|].
  destruct (N.eqb_spec c Ch.LDQUO); [done|].
  destruct (N.eqb_spec c Ch.RDQUO); [done|].
  by destruct (N.eqb_spec c Ch.RSQUO).
Qed.

Ltac ascii_quote_cases c :=
  unfold ascii_quote;
  destruct (N.eqb_spec c Ch.LDQUO) as [->|]; [done|];
  destruct (N.eqb_spec c Ch.RDQUO) as [->|]; [done|];
  destruct (N.eqb_spec c Ch.RSQUO) as [->|]; done.

(** X5.  The three quotation marks count as the ASCII quotes they are
    replaced by: a text and the same text with ASCII quotes in their
    place extract alike. *)
Theorem safe_json_from_text_ascii_quote (json_loads : pystr -> option json)
    (t : pystr) :
  safe_json_from_text json_loads (Some (ascii_quote <$> t))
  = safe_json_from_text json_loads (Some t).
Proof.
  assert (Hp : preprocess (ascii_quote <$> t) = preprocess t).
  { unfold preprocess. rewrite !replace_ascii_quote.
    rewrite (_strip_code_fences_fmap ascii_quote)
      by (intros c; ascii_quote_cases c).
    rewrite <- list_fmap_compose. apply list_fmap_ext.
    intros _ c _. apply ascii_quote_idempotent. }
  unfold safe_json_from_text. by rewrite Hp.
Qed.

(** ** The normalizer, by cases *)

(** X6.  For a model whose name begins with [gpt-5], a payload that
    carries the legacy limit and not the new one is returned with the
    limit renamed: the value moves to the new name, the legacy name is
    gone, and every other entry is as it was. *)
Theorem normalize_for_gpt5_renames (body : gmap pystr json) (name : pystr) (v : json) :
  body !! lit "model" = Some (JStr name) ->
  startswith (lit "gpt-5") name = true ->
  body !! MAX_TOKENS = Some v ->
  body !! MAX_COMPLETION_TOKENS = None ->
  exists body',
    normalize_for_gpt5 body = Ok body'
    /\ body' !! MAX_COMPLETION_TOKENS = Some v
    /\ body' !! MAX_TOKENS = None
    /\ forall k, k <> MAX_TOKENS -> k <> MAX_COMPLETION_TOKENS -> body' !! k = body !! k.
Proof.
  intros Hm Hg Hv Hw. eexists. split.
  - unfold normalize_for_gpt5, get_or_empty, has_key.
    rewrite Hm, Hv, Hw. cbn [default from_option id]. by rewrite Hg.
  - split; [apply lookup_insert_eq|]. split.
    + rewrite lookup_insert_ne by (apply not_eq_sym; auto with keys).
      apply lookup_delete_eq.
    + intros k H1 H2. by rewrite lookup_insert_ne, lookup_delete_ne.
Qed.

Lemma normalize_for_gpt5_renames_witness :
  exists body',
    normalize_for_gpt5 (<[MAX_TOKENS := JInt 5]> body_without_limit) = Ok body'
    /\ body' !! MAX_COMPLETION_TOKENS = Some (JInt 5)
    /\ body' !! MAX_TOKENS = None
    /\ forall k, k <> MAX_TOKENS -> k <> MAX_COMPLETION_TOKENS ->
         body' !! k = (<[MAX_TOKENS := JInt 5]> body_without_limit) !! k.
Proof.
  apply (normalize_for_gpt5_renames (<[MAX_TOKENS := JInt 5]> body_without_limit)
           (lit "gpt-5-mini") (JInt 5)); vm_compute; reflexivity.
Defined.

(** X7.  The normalizer raises exactly on a payload whose [model] entry
    is present and is not a string, and then it raises
    [AttributeError]; a payload without a [model] entry is returned as it
    is. *)
Theorem normalize_for_gpt5_raises_iff (body : gmap pystr json) :
  (forall e, normalize_for_gpt5 body = Raise e <->
     e = AttributeError
     /\ exists v, body !! lit "model" = Some v /\ forall s, v <> JStr s)
  /\ (body !! lit "model" = None -> normalize_for_gpt5 body = Ok body).
Proof.
  split.
  - intros e. split.
    + intros H. unfold normalize_for_gpt5, get_or_empty in H.
      destruct (body !! lit "model") as [v|] eqn:Hm; cbn [default from_option id] in H.
      * destruct v as [| | | |s| |];
          try (injection H as <-; split; [done|]; eexists; split; [done|];
               intros s; discriminate).
        unfold has_key in H.
        destruct (body !! MAX_TOKENS); [by repeat case_match|].
        by rewrite andb_false_r in H.
      * by repeat case_match.
    + intros [-> (v & Hv & Hns)]. unfold normalize_for_gpt5, get_or_empty.
      rewrite Hv. destruct v as [| | | |s| |]; try done. by destruct (Hns s).
  - intros Hm. unfold normalize_for_gpt5, get_or_empty. by rewrite Hm.
Qed.

(** ** Provider dispatch, by cases *)

(** X8.  Without the credential of the provider the model denotes (not
    set, or empty), the request fails with a 500 that names the missing
    key, whatever the network would answer: nothing is sent. *)
Theorem forward_to_upstream_missing_key (env : credentials)
    (post : pystr -> gmap pystr pystr -> gmap pystr json -> result httpx_response)
    (body : gmap pystr json) (name : pystr) :
  body !! lit "model" = Some (JStr name) ->
  api_key env (provider_of name) = None \/ api_key env (provider_of name) = Some [] ->
  forward_to_upstream env post body
  = Raise (HTTPException 500 (key_not_set (provider_of name))).
Proof.
  intros Hm Hk. unfold forward_to_upstream, get_or_empty, provider_of in *.
  rewrite Hm. simpl. destruct (is_openrouter_model name); by destruct Hk as [->| ->].
Qed.

Lemma forward_to_upstream_missing_key_witness :
  forward_to_upstream {| OPENAI_API_KEY := Some (lit "sk-test"); OPENROUTER_API_KEY := None |}
    (always {| status_code := 200; text := [] |})
    (<[lit "model" := JStr (lit "anything:free")]> ∅)
  = Raise (HTTPException 500 (lit "OPENROUTER_API_KEY not set")).
Proof.
  apply (forward_to_upstream_missing_key _ _ _ (lit "anything:free")).
  - vm_compute. reflexivity.
  - left. vm_compute. reflexivity.
Defined.

Lemma forward_to_upstream_with_key (env : credentials)
    (post : pystr -> gmap pystr pystr -> gmap pystr json -> result httpx_response)
    (body : gmap pystr json) (name key : pystr) :
  body !! lit "model" = Some (JStr name) ->
  api_key env (provider_of name) = Some key ->
  key <> [] ->
  forward_to_upstream env post body
  = post (upstream_url (provider_of name))
      (<[lit "Authorization" := lit "Bearer " ++ key]>
         {[ lit "Content-Type" := lit "application/json" ]})
      body.
Proof.
  intros Hm Hk Hne. unfold forward_to_upstream, get_or_empty, provider_of in *.
  rewrite Hm. simpl.
  destruct (is_openrouter_model name); rewrite Hk; by destruct key.
Qed.

(** X9.  With the credential of the provider the model denotes, the
    payload goes, as it is, to that provider's address with two headers,
    the content type and the bearer credential; the other provider's
    credential plays no part. *)
Theorem forward_to_upstream_routes (env : credentials)
    (post : pystr -> gmap pystr pystr -> gmap pystr json -> result httpx_response)
    (body : gmap pystr json) (name key : pystr) :
  body !! lit "model" = Some (JStr name) ->
  api_key env (provider_of name) = Some key ->
  key <> [] ->
  forward_to_upstream env post body
  = post (upstream_url (provider_of name))
      (<[lit "Authorization" := lit "Bearer " ++ key]>
         {[ lit "Content-Type" := lit "application/json" ]})
      body
  /\ forall env', api_key env' (provider_of name) = Some key ->
       forward_to_upstream env' post body = forward_to_upstream env post body.
Proof.
  intros Hm Hk Hne. split; [by apply forward_to_upstream_with_key|].
  intros env' Hk'.
  by rewrite !(forward_to_upstream_with_key _ post body name key).
Qed.

Lemma forward_to_upstream_routes_witness :
  forward_to_upstream both_keys (always {| status_code := 200; text := [] |})
    (<[lit "model" := JStr (lit "gpt-4o")]> ∅)
  = always {| status_code := 200; text := [] |} OPENAI_URL
      (<[lit "Authorization" := lit "Bearer " ++ lit "sk-test"]>
         {[ lit "Content-Type" := lit "application/json" ]})
      (<[lit "model" := JStr (lit "gpt-4o")]> ∅).
Proof.
  refine (proj1 (forward_to_upstream_routes both_keys _ _ (lit "gpt-4o") (lit "sk-test")
                   _ _ _)).
  - vm_compute. reflexivity.
  - vm_compute. reflexivity.
  - vm_compute. discriminate.
Defined.

(** ** The record store *)

(** X10.  Ensuring the header a second time changes nothing; a file
    that has rows is never rewritten; other files are not touched; and
    afterwards the file exists and has at least one row. *)
Theorem ensure_csv_header_idempotent (path : pystr) (fieldnames : list pystr)
    (fs : filesystem) :
  ensure_csv_header path fieldnames (ensure_csv_header path fieldnames fs)
  = ensure_csv_header path fieldnames fs
  /\ (forall first rest, fs !! path = Some (first :: rest) ->
        ensure_csv_header path fieldnames fs = fs)
  /\ (forall other, other <> path ->
        ensure_csv_header path fieldnames fs !! other = fs !! other)
  /\ exists first rest,
       ensure_csv_header path fieldnames fs !! path = Some (first :: rest).
Proof.
  unfold ensure_csv_header.
  destruct (fs !! path) as [[|first rest]|] eqn:Hp; simpl.
  - rewrite lookup_insert_eq. simpl. repeat split; try done.
    + intros other Hne. by rewrite lookup_insert_ne.
    + by eexists _, _.
  - rewrite Hp. simpl. repeat split; try done. by eexists _, _.
  - rewrite lookup_insert_eq. simpl. repeat split; try done.
    + intros other Hne. by rewrite lookup_insert_ne.
    + by eexists _, _.
Qed.



(** ** Canonical records *)

Lemma canonicalize_record_lookup (fr : pystr -> pystr) (cr : json -> pystr)
    (m : gmap pystr json) (record : gmap pystr pystr) (k : pystr) :
  canonicalize_record fr cr (JObject m) = Ok record ->
  record !! k = if decide (k ∈ fields)
                then Some (field_of_source (py_str fr cr) (m !! k)) else None.
Proof.
  intros H.
  assert (Hr : record = foldl (fun out k => <[k := canonical_field fr cr m k]> out)
                          ∅ fields)
    by (unfold canonicalize_record in H; congruence).
  rewrite Hr, (lookup_foldl_insert (canonical_field fr cr m)).
  by rewrite canonical_field_source, lookup_empty.
Qed.


Lemma field_of_source_trimmed (str : json -> pystr) (source : option json) :
  strip (field_of_source str source) = field_of_source str source.
Proof.
  unfold field_of_source.
  destruct source as [[| | | | | |]|]; try apply strip_idempotent; reflexivity.
Qed.

(** X12.  Every value of a canonical record is free of surrounding
    blanks, and a canonical record is a fixed point: read back as a
    mapping of strings, it canonicalizes to itself. *)
Theorem canonicalize_record_idempotent (float_repr : pystr -> pystr)
    (container_repr : json -> pystr) (d : json) (record : gmap pystr pystr) :
  canonicalize_record float_repr container_repr d = Ok record ->
  (forall k x, record !! k = Some x -> strip x = x)
  /\ canonicalize_record float_repr container_repr (JObject (JStr <$> record))
     = Ok record.
Proof.
  intros H. destruct d as [| | | | | |m]; try done.
  pose proof (fun k => canonicalize_record_lookup _ _ m record k H) as Hlook.
  assert (Htrim : forall k x, record !! k = Some x -> strip x = x).
  { intros k x Hx. rewrite Hlook in Hx.
    destruct (decide (k ∈ fields)); [|done]. injection Hx as <-.
    apply field_of_source_trimmed. }
  split; [done|].
  destruct (canonicalize_record float_repr container_repr (JObject (JStr <$> record)))
    as [record'|] eqn:H'; [|done].
  f_equal. apply map_eq. intros k.
  rewrite (canonicalize_record_lookup _ _ _ record' k H'), lookup_fmap.
  destruct (record !! k) as [x|] eqn:Hx; simpl.
  - pose proof Hx as Hx'. rewrite Hlook in Hx'.
    destruct (decide (k ∈ fields)); [|done]. by rewrite (Htrim k x Hx).
  - rewrite Hlook in Hx. by destruct (decide (k ∈ fields)).
Qed.

Lemma canonicalize_record_idempotent_witness :
  canonicalize_record (fun lx => lx) (fun _ => [])
    (JObject (JStr <$> foldl (fun out k =>
                <[k := canonical_field (fun lx => lx) (fun _ => [])
                         {[ lit "company" := JStr (lit " Acme ") ]} k]> out) ∅ fields))
  = Ok (foldl (fun out k =>
                <[k := canonical_field (fun lx => lx) (fun _ => [])
                         {[ lit "company" := JStr (lit " Acme ") ]} k]> out) ∅ fields).
Proof.
  refine (proj2 (canonicalize_record_idempotent (fun lx => lx) (fun _ => [])
                   (JObject {[ lit "company" := JStr (lit " Acme ") ]}) _ _)).
  reflexivity.
Defined.

(** ** The prefill endpoint, case by case *)











(** X16.  An email that is empty or all blanks is refused with a 400
    before anything else happens: no credential is looked at, nothing is
    sent, the store is as it was. *)
Theorem prefill_rejects_blank_email (float_repr : pystr -> pystr)
    (container_repr : json -> pystr) (env : credentials)
    (post : pystr -> gmap pystr pystr -> gmap pystr json -> result httpx_response)
    (payload : PrefillIn) (fs : filesystem) :
  Forall (fun c => isspace c = true) (email_text payload) ->
  prefill float_repr container_repr env post payload fs
  = (Ok {| response_status := 400;
           response_content := answer false (lit "email_text is required") |}, fs).
Proof.
  intros Hb. unfold prefill.
  replace (strip (email_text payload)) with (@nil N); [done|].
  unfold strip. by rewrite (lstrip_all_blank _ Hb).
Qed.

Lemma prefill_rejects_blank_email_witness :
  prefill (fun lx => lx) (fun _ => []) both_keys
    (always {| status_code := 200; text := completion "{}" |})
    {| email_text := [Ch.SPACE; Ch.LF]; model := None |} ∅
  = (Ok {| response_status := 400;
           response_content := answer false (lit "email_text is required") |}, ∅).
Proof.
  apply (prefill_rejects_blank_email (fun lx => lx) (fun _ => []) both_keys
           (always {| status_code := 200; text := completion "{}" |})
           {| email_text := [Ch.SPACE; Ch.LF]; model := None |} ∅).
  repeat constructor.
Defined.

(** X17.  When the call to the provider raises: an error of the HTTP
    client becomes the uniform failure payload under status 502; any
    other exception, such as the 500 of a missing credential, leaves the
    handler as it is.  The store is as it was. *)
Theorem prefill_upstream_exception (float_repr : pystr -> pystr)
    (container_repr : json -> pystr) (env : credentials)
    (post : pystr -> gmap pystr pystr -> gmap pystr json -> result httpx_response)
    (payload : PrefillIn) (fs : filesystem) (e : exn) :
  strip (email_text payload) <> [] ->
  forward_to_upstream env post
    (prefill_body (model_or_default (model payload)) (strip (email_text payload)))
  = Raise e ->
  prefill float_repr container_repr env post payload fs
  = (match e with
     | HTTPError => Ok {| response_status := 502;
                          response_content := SOMETHING_WENT_WRONG |}
     | _ => Raise e
     end, fs).
Proof.
  intros Hemail Hup. unfold prefill.
  destruct (strip (email_text payload)) as [|c email] eqn:He; [done|].
  rewrite normalize_prefill_body, Hup. by destruct e.
Qed.

Lemma prefill_upstream_exception_witness :
  prefill (fun lx => lx) (fun _ => [])
    {| OPENAI_API_KEY := None; OPENROUTER_API_KEY := None |}
    (always {| status_code := 200; text := completion "{}" |}) pay_request ∅
  = (Raise (HTTPException 500 (lit "OPENAI_API_KEY not set")), ∅).
Proof.
  apply (prefill_upstream_exception (fun lx => lx) (fun _ => [])
           {| OPENAI_API_KEY := None; OPENROUTER_API_KEY := None |}
           (always {| status_code := 200; text := completion "{}" |}) pay_request ∅
           (HTTPException 500 (lit "OPENAI_API_KEY not set"))).
  - vm_compute. discriminate.
  - vm_compute. reflexivity.
Defined.

(** X18.  When the provider answers 200 and the model's text extracts
    to a value that is no mapping (a list, a string, a number, a
    boolean, null), [prefill] does not return: [AttributeError] leaves
    the handler.  The store is as it was. *)
Theorem prefill_non_mapping_raises (float_repr : pystr -> pystr)
    (container_repr : json -> pystr) (env : credentials)
    (post : pystr -> gmap pystr pystr -> gmap pystr json -> result httpx_response)
    (payload : PrefillIn) (fs : filesystem) (upstream : httpx_response)
    (resp raw_text parsed : json) :
  strip (email_text payload) <> [] ->
  forward_to_upstream env post
    (prefill_body (model_or_default (model payload)) (strip (email_text payload)))
  = Ok upstream ->
  status_code upstream = 200%Z ->
  Json.loads (text upstream) = Some resp ->
  message_content resp = Ok raw_text ->
  safe_json_from_content raw_text = Ok parsed ->
  is_dict parsed = false ->
  prefill float_repr container_repr env post payload fs = (Raise AttributeError, fs).
Proof.
  intros Hemail Hup H200 Hresp Hraw Hparsed Hd. unfold prefill.
  destruct (strip (email_text payload)) as [|c email] eqn:He; [done|].
  rewrite normalize_prefill_body, Hup, H200. cbn [Z.eqb Pos.eqb negb].
  unfold store_extracted. rewrite Hresp, Hraw, Hparsed.
  by destruct parsed.
Qed.

Lemma prefill_non_mapping_raises_witness :
  prefill (fun lx => lx) (fun _ => []) both_keys
    (always {| status_code := 200; text := completion "null" |}) pay_request ∅
  = (Raise AttributeError, ∅).
Proof.
  apply (prefill_non_mapping_raises (fun lx => lx) (fun _ => []) both_keys
           (always {| status_code := 200; text := completion "null" |}) pay_request ∅
           {| status_code := 200; text := completion "null" |}
           (JObject {[ lit "choices" :=
              JList [JObject {[ lit "message" :=
                JObject {[ lit "content" := JStr (lit "null") ]} ]}] ]})
           (JStr (lit "null")) JNull).
  - vm_compute. discriminate.
  - vm_compute. reflexivity.
  - reflexivity.
  - vm_compute. reflexivity.
  - vm_compute. reflexivity.
  - vm_compute. reflexivity.
  - reflexivity.
Defined.



(** ** The chat endpoint *)

(** X20.  A request object without [model] or without [messages] is
    refused with a 400 before anything is sent. *)
Theorem chat_completions_requires_fields (env : credentials)
    (post : pystr -> gmap pystr pystr -> gmap pystr json -> result httpx_response)
    (error_repr : pystr) (m : gmap pystr json) :
  m !! lit "model" = None \/ m !! lit "messages" = None ->
  chat_completions env post error_repr (JObject m)
  = Raise (HTTPException 400 FIELDS_REQUIRED).
Proof.
  intros H. unfold chat_completions, contains_key, has_key. cbn [bind].
  destruct (m !! lit "model"); destruct (m !! lit "messages"); try done.
  by destruct H.
Qed.

Lemma chat_completions_requires_fields_witness :
  chat_completions both_keys (always {| status_code := 200; text := [] |}) []
    (JObject {[ lit "model" := JStr (lit "gpt-4o") ]})
  = Raise (HTTPException 400 FIELDS_REQUIRED).
Proof.
  apply (chat_completions_requires_fields both_keys _ []
           {[ lit "model" := JStr (lit "gpt-4o") ]}).
  right. vm_compute. reflexivity.
Defined.




(** X22.  A request body that is not an object never reaches a
    provider: a number, a boolean or null raises [TypeError]; a list or a
    string is refused with the 400 unless it contains both names, and
    then it raises [AttributeError]. *)
Theorem chat_completions_non_object (env : credentials)
    (post : pystr -> gmap pystr pystr -> gmap pystr json -> result httpx_response)
    (error_repr : pystr) (body : json) :
  is_dict body = false ->
  chat_completions env post error_repr body
  = match body with
    | JList _ | JStr _ =>
        match contains_key (lit "model") body, contains_key (lit "messages") body with
        | Ok true, Ok true => Raise AttributeError
        | _, _ => Raise (HTTPException 400 FIELDS_REQUIRED)
        end
    | _ => Raise TypeError
    end.
Proof.
  intros Hd. unfold chat_completions.
  destruct body as [| | | |s|items|m]; try done.
  - cbn [contains_key bind].
    destruct (is_substring (lit "model") s); [|done].
    by destruct (is_substring (lit "messages") s).
  - cbn [contains_key bind].
    destruct (existsb _ items); [|done].
    by destruct (existsb _ items).
Qed.

Lemma chat_completions_non_object_witness :
  chat_completions both_keys (always {| status_code := 200; text := [] |}) []
    (JList [JStr (lit "model"); JStr (lit "messages")])
  = Raise AttributeError.
Proof.
  apply (chat_completions_non_object both_keys _ []
           (JList [JStr (lit "model"); JStr (lit "messages")])).
  reflexivity.
Defined.
